(** * file_operations.py: the cut / copy / paste clipboard engine

    A shallow embedding of [src/file_operations.py] (class [FileOperations],
    its helpers and [main]) and the properties of its clipboard state,
    conflict resolution and batch accounting.

    Layout of the development:
    - Python values the code manipulates: strings, [pathlib.Path], the two
      enumerations, the exception classes it raises and catches;
    - the host filesystem, as an interface ([HostFS]) with one in-memory
      instance used to run the code on concrete trees;
    - a state-and-exception monad for the process (object state, filesystem,
      standard input, standard output);
    - the methods of [FileOperations] and [main], in source order;
    - the theorems. *)

From stdpp Require Import base list strings pretty.
From Stdlib Require Import ZArith Ascii String.

Local Open Scope string_scope.
Local Open Scope list_scope.

(** ** Strings *)

Module PyStr.

(** [s.split(sep)] for a one-character separator. *)
Fixpoint split (sep : ascii) (s : string) : list string :=
  match s with
  | EmptyString => [ EmptyString ]
  | String c s' =>
      if Ascii.eqb c sep then EmptyString :: split sep s'
      else match split sep s' with
           | [] => [ String c EmptyString ]
           | w :: ws => String c w :: ws
           end
  end.

(** [s.rfind(c)]: the index of the last occurrence of [c], [None] for -1. *)
Fixpoint rfind (c : ascii) (s : string) : option nat :=
  match s with
  | EmptyString => None
  | String a s' =>
      match rfind c s' with
      | Some i => Some (S i)
      | None => if Ascii.eqb a c then Some 0 else None
      end
  end.

(** ASCII white space, the characters [str.strip()] removes (the model
    reads standard input as ASCII text). *)
Definition is_space (c : ascii) : bool :=
  let n := nat_of_ascii c in
  (Nat.eqb n 32 || (Nat.leb 9 n && Nat.leb n 13) || (Nat.leb 28 n && Nat.leb n 31))%bool.

Fixpoint lstrip (s : string) : string :=
  match s with
  | EmptyString => EmptyString
  | String c s' => if is_space c then lstrip s' else s
  end.

Fixpoint rstrip (s : string) : string :=
  match s with
  | EmptyString => EmptyString
  | String c s' =>
      match rstrip s' with
      | EmptyString => if is_space c then EmptyString else String c EmptyString
      | r => String c r
      end
  end.

Definition strip (s : string) : string := rstrip (lstrip s).

Definition upper_char (c : ascii) : ascii :=
  let n := nat_of_ascii c in
  if (Nat.leb 97 n && Nat.leb n 122)%bool then ascii_of_nat (n - 32) else c.

Fixpoint upper (s : string) : string :=
  match s with
  | EmptyString => EmptyString
  | String c s' => String (upper_char c) (upper s')
  end.

Definition lower_char (c : ascii) : ascii :=
  let n := nat_of_ascii c in
  if (Nat.leb 65 n && Nat.leb n 90)%bool then ascii_of_nat (n + 32) else c.

Fixpoint lower (s : string) : string :=
  match s with
  | EmptyString => EmptyString
  | String c s' => String (lower_char c) (lower s')
  end.

(** [s.isascii()]: every character has a code below 128.  On such a
    string [strip], [upper] and [lower] above are the methods of [str]. *)
Definition isascii (s : string) : bool :=
  forallb (fun c => Nat.ltb (nat_of_ascii c) 128) (list_ascii_of_string s).

(** [s[:i]] and [s[i:]]. *)
Definition take (i : nat) (s : string) : string := substring 0 i s.
Definition drop (i : nat) (s : string) : string := substring i (String.length s - i) s.

End PyStr.

(** ** pathlib.Path (POSIX flavour)

    A path is its root (empty for a relative path, ["/"] or ["//"]) and its
    components; [Path(s)] drops empty and ["."] components, as pathlib does,
    and keeps [".."]. *)

Record Path : Type := mkPath { root : string; parts : list string }.

Global Instance Path_eq_dec : EqDecision Path.
Proof. solve_decision. Defined.

Module PosixPath.

Definition keep_part (c : string) : bool :=
  negb (String.eqb c "" || String.eqb c ".")%bool.

Definition parse_root (s : string) : string :=
  match s with
  | String "/" (String "/" (String "/" _)) => "/"
  | String "/" (String "/" _) => "//"
  | String "/" _ => "/"
  | _ => ""
  end.

(** [Path(s)] *)
Definition of_str (s : string) : Path :=
  mkPath (parse_root s) (List.filter keep_part (PyStr.split "/" s)).

(** [p.name]: the final component, [''] when there is none. *)
Definition name (p : Path) : string := List.last (parts p) "".

(** [p.parent] *)
Definition parent (p : Path) : Path := mkPath (root p) (List.removelast (parts p)).

(** [p / n] where [n] is a final component ([source.name], or the name
    built by [_get_unique_name]): one component is appended; the empty
    name leaves [p] as it is. *)
Definition joinname (p : Path) (n : string) : Path :=
  if String.eqb n "" then p else mkPath (root p) (parts p ++ [n]).

(** The split of a name at its last dot that [suffix] and [stem] share
    (pathlib up to Python 3.13): the dot must be neither the first nor the
    last character. *)
Definition split_point (n : string) : option nat :=
  match PyStr.rfind "." n with
  | Some i => if (Nat.ltb 0 i && Nat.ltb i (String.length n - 1))%bool then Some i else None
  | None => None
  end.

(** [p.suffix] *)
Definition suffix (p : Path) : string :=
  match split_point (name p) with
  | Some i => PyStr.drop i (name p)
  | None => ""
  end.

(** [p.stem] *)
Definition stem (p : Path) : string :=
  match split_point (name p) with
  | Some i => PyStr.take i (name p)
  | None => name p
  end.

(** [p.absolute()] in working directory [cwd]: a relative path is
    appended to [cwd]; nothing is normalised. *)
Definition absolute (cwd p : Path) : Path :=
  if String.eqb (root p) "" then mkPath (root cwd) (parts cwd ++ parts p) else p.

End PosixPath.

Notation "p // n" := (PosixPath.joinname p n) (at level 40, left associativity).

(** ** Enumerations and exceptions *)

Inductive OperationType : Type := COPY | CUT.

Inductive ConflictAction : Type := REPLACE | KEEP_BOTH | SKIP.

Global Instance OperationType_eq_dec : EqDecision OperationType.
Proof. solve_decision. Defined.

Global Instance ConflictAction_eq_dec : EqDecision ConflictAction.
Proof. solve_decision. Defined.

(** The exception classes the code names, raises or lets through.
    [PermissionError] is a subclass of [OSError]; [OtherException] stands
    for any other subclass of [Exception] (for instance [EOFError] from
    [input()]); [KeyboardInterrupt] and [SystemExit] derive from
    [BaseException] only, so no [except Exception] clause catches them. *)
Inductive exn : Type :=
| PermissionError
| OSError
| OtherException
| FileOperationError (why : string)
| KeyboardInterrupt
| SystemExit (code : Z).

Global Instance exn_eq_dec : EqDecision exn.
Proof. solve_decision. Defined.

(** [isinstance(e, Exception)] *)
Definition is_Exception (e : exn) : bool :=
  match e with
  | KeyboardInterrupt | SystemExit _ => false
  | _ => true
  end.

(** [isinstance(e, (PermissionError, OSError))] *)
Definition is_OSError (e : exn) : bool :=
  match e with
  | PermissionError | OSError => true
  | _ => false
  end.

(** The result of running a piece of Python: a value, or an exception on
    its way up. *)
Inductive res (A : Type) : Type :=
| Ok (a : A)
| Raise (e : exn).
Arguments Ok {A} a.
Arguments Raise {A} e.

(** ** Standard input and output *)

(** What one call of [input()] meets: a line, or an exception raised while
    reading (Ctrl-C is [Interrupted KeyboardInterrupt]).  Reading past the
    end of [stdin] raises [EOFError], an [Exception]. *)
Inductive input_event : Type :=
| Line (s : string)
| Interrupted (e : exn).

(** The lines the code prints, one constructor per [print] call (one for
    the block of calls that opens the conflict prompt, one for the usage
    text), carrying the values the f-string formats. *)
Inductive message : Type :=
| MsgPathMissing (path_str : string)
| MsgStaged (op : OperationType) (n : nat)
| MsgItem (p : Path)
| MsgStageError (op : OperationType) (e : exn)
| MsgClipboardEmptyError
| MsgNoOperationType
| MsgDestMissing (destination : string)
| MsgDestNotDir (destination : string)
| MsgSkipped (name : string)
| MsgCopied (name : string) (dest : Path)
| MsgMoved (name : string) (dest : Path)
| MsgFailed (name : string) (e : exn)
| MsgUnexpected (name : string) (e : exn)
| MsgSummary (success_count failed_count : nat)
| MsgPasteError (e : exn)
| MsgConflict (source destination : Path)
| MsgInvalidChoice
| MsgCancelled
| MsgInputError (e : exn)
| MsgCleared
| MsgClipboardIsEmpty
| MsgClipboardHeader (op_type : string)
| MsgUsage
| MsgNeedPath (command : string)
| MsgNeedDestination
| MsgUnknownCommand (command : string)
| MsgTopLevelError (e : exn).

(** ** The host filesystem

    The code is a leaf over [pathlib], [shutil] and [os]; what it needs of
    them is this interface.  The two queries are total ([Path.exists] and
    [Path.is_dir] answer [False] on errors).  A mutating call returns the
    filesystem it leaves behind and the exception it raised, if any: a call
    may fail half-way.  [os.getcwd()] is an absolute path.  [entries] bounds
    a directory: the names that exist under it are finitely many. *)
Class HostFS (W : Type) : Type := {
  getcwd : W -> Path;
  getcwd_absolute : forall w, root (getcwd w) <> "";
  path_exists : W -> Path -> bool;
  path_is_dir : W -> Path -> bool;
  entries : W -> Path -> list string;
  entries_complete :
    forall w d n, n <> "" -> path_exists w (d // n) = true -> n ∈ entries w d;
  rmtree : W -> Path -> W * option exn;
  unlink : W -> Path -> W * option exn;
  copytree : W -> Path -> Path -> W * option exn;
  copy2 : W -> Path -> Path -> W * option exn;
  move : W -> Path -> Path -> W * option exn
}.

(** ** The process: object state, filesystem, standard streams *)

(** The two attributes [__init__] creates. *)
Record FileOperations : Type := mkFileOperations {
  clipboard : list Path;
  operation_type : option OperationType
}.

(** [FileOperations()] *)
Definition __init__ : FileOperations := mkFileOperations [] None.

Record Process (W : Type) : Type := mkProcess {
  self : FileOperations;
  host : W;
  stdin : list input_event;
  stdout : list message
}.
Arguments mkProcess {W} _ _ _ _.
Arguments self {W} _.
Arguments host {W} _.
Arguments stdin {W} _.
Arguments stdout {W} _.

(** A computation runs in a process state and leaves a state behind,
    whether it returns or raises. *)
Definition M (W A : Type) : Type := Process W -> res A * Process W.

Section Monad.
Context {W : Type}.

Definition ret {A} (a : A) : M W A := fun σ => (Ok a, σ).

Definition raise {A} (e : exn) : M W A := fun σ => (Raise e, σ).

Definition bind {A B} (m : M W A) (k : A -> M W B) : M W B :=
  fun σ => match m σ with
           | (Ok a, σ') => k a σ'
           | (Raise e, σ') => (Raise e, σ')
           end.

(** [try: m  except ...: h]: [h e] is the body of the first clause that
    matches [e], [None] when no clause matches and [e] keeps going up. *)
Definition try_except {A} (m : M W A) (h : exn -> option (M W A)) : M W A :=
  fun σ => match m σ with
           | (Ok a, σ') => (Ok a, σ')
           | (Raise e, σ') =>
               match h e with
               | Some k => k σ'
               | None => (Raise e, σ')
               end
           end.

Definition print (m : message) : M W unit :=
  fun σ => (Ok tt, mkProcess (self σ) (host σ) (stdin σ) (stdout σ ++ [m])).

Definition get_self : M W FileOperations := fun σ => (Ok (self σ), σ).

Definition set_self (s : FileOperations) : M W unit :=
  fun σ => (Ok tt, mkProcess s (host σ) (stdin σ) (stdout σ)).

(** [self.clipboard = c] and [self.operation_type = t] *)
Definition set_clipboard (c : list Path) : M W unit :=
  fun σ => (Ok tt, mkProcess (mkFileOperations c (operation_type (self σ)))
                             (host σ) (stdin σ) (stdout σ)).

Definition set_operation_type (t : option OperationType) : M W unit :=
  fun σ => (Ok tt, mkProcess (mkFileOperations (clipboard (self σ)) t)
                             (host σ) (stdin σ) (stdout σ)).

Definition set_stdin (i : list input_event) : M W unit :=
  fun σ => (Ok tt, mkProcess (self σ) (host σ) i (stdout σ)).

(** A read-only question to the filesystem. *)
Definition query {A} (f : W -> A) : M W A := fun σ => (Ok (f (host σ)), σ).

(** A mutating call into the filesystem. *)
Definition host_call (f : W -> W * option exn) : M W unit :=
  fun σ => let (w', r) := f (host σ) in
           (match r with None => Ok tt | Some e => Raise e end,
            mkProcess (self σ) w' (stdin σ) (stdout σ)).

End Monad.

Notation "x <- c ;; k" := (bind c (fun x => k))
  (at level 100, c at next level, right associativity).
Notation "c ;; k" := (bind c (fun _ => k))
  (at level 100, right associativity).

(** A loop body or a block either falls through with a value or leaves
    the function with [return r]. *)
Inductive flow (A R : Type) : Type :=
| Fallthrough (a : A)
| Return (r : R).
Arguments Fallthrough {A R} a.
Arguments Return {A R} r.

(** How the [try] statement of one iteration of [paste]'s loop ends: at
    [success_count += 1] (with the path the entry went to), at [continue],
    or in one of the two handlers. *)
Inductive Outcome : Type :=
| Succeeded (final : Path)
| Skipped
| Failed (e : exn).

(** The counter updates at those three exits, on the pair
    [(success_count, failed_count)]. *)
Definition tally (o : Outcome) (counts : nat * nat) : nat * nat :=
  match o with
  | Succeeded _ => (S (fst counts), snd counts)
  | Skipped => counts
  | Failed _ => (fst counts, S (snd counts))
  end.

(** [OperationType.value] *)
Definition OperationType_value (op : OperationType) : string :=
  match op with COPY => "copy" | CUT => "cut" end.

(** [int(b)]: a Python [bool] read as the integer it is. *)
Definition int_of_bool (b : bool) : nat := if b then 1 else 0.

(** ** class FileOperations *)

Section Engine.
Context {W : Type} `{HostFS W}.

(** The validation loop of [copy] and [cut] (the two methods repeat it
    verbatim): [Return false] at the first path that does not exist,
    otherwise the absolute paths in input order. *)
Fixpoint validate_paths (paths : list string) (validated_paths : list Path)
  : M W (flow (list Path) bool) :=
  match paths with
  | [] => ret (Fallthrough validated_paths)
  | path_str :: rest =>
      let path := PosixPath.of_str path_str in
      found <- query (fun w => path_exists w path) ;;
      if negb found then
        print (MsgPathMissing path_str) ;;
        ret (Return false)
      else
        abs <- query (fun w => PosixPath.absolute (getcwd w) path) ;;
        validate_paths rest (validated_paths ++ [abs])
  end.

(** [for path in validated_paths: print(f"  - {path}")] *)
Fixpoint print_items (items : list Path) : M W unit :=
  match items with
  | [] => ret tt
  | p :: rest => print (MsgItem p) ;; print_items rest
  end.

Definition copy (paths : list string) : M W bool :=
  try_except
    (r <- validate_paths paths [] ;;
     match r with
     | Return b => ret b
     | Fallthrough validated_paths =>
         set_clipboard validated_paths ;;
         set_operation_type (Some COPY) ;;
         print (MsgStaged COPY (List.length validated_paths)) ;;
         print_items validated_paths ;;
         ret true
     end)
    (fun e => if is_Exception e
              then Some (print (MsgStageError COPY e) ;; ret false)
              else None).

Definition cut (paths : list string) : M W bool :=
  try_except
    (r <- validate_paths paths [] ;;
     match r with
     | Return b => ret b
     | Fallthrough validated_paths =>
         set_clipboard validated_paths ;;
         set_operation_type (Some CUT) ;;
         print (MsgStaged CUT (List.length validated_paths)) ;;
         print_items validated_paths ;;
         ret true
     end)
    (fun e => if is_Exception e
              then Some (print (MsgStageError CUT e) ;; ret false)
              else None).

(** The three [except] clauses of [_copy_item] and [_move_item], in
    source order; [what] is ["copy"] or ["move"]. *)
Definition wrap_error (what : string) (e : exn) : option (M W unit) :=
  match e with
  | PermissionError => Some (raise (FileOperationError "Permission denied"))
  | OSError => Some (raise (FileOperationError ("OS error during " ++ what)))
  | _ => if is_Exception e
         then Some (raise (FileOperationError ("Failed to " ++ what)))
         else None
  end.

Definition _copy_item (source destination : Path) : M W unit :=
  try_except
    (is_directory <- query (fun w => path_is_dir w source) ;;
     if is_directory
     then host_call (fun w => copytree w source destination)
     else host_call (fun w => copy2 w source destination))
    (wrap_error "copy").

Definition _move_item (source destination : Path) : M W unit :=
  try_except
    (host_call (fun w => move w source destination))
    (wrap_error "move").

(** [f"{stem} ({counter}){suffix}"] *)
Definition numbered_name (stem : string) (counter : nat) (suffix : string) : string :=
  stem ++ " (" ++ pretty counter ++ ")" ++ suffix.

(** The [while True] loop of [_get_unique_name], with a bound on the
    number of iterations: [None] when the bound is used up. *)
Fixpoint unique_name_loop (fuel : nat) (w : W) (parent : Path)
    (stem suffix : string) (counter : nat) : option Path :=
  match fuel with
  | 0 => None
  | S fuel' =>
      let new_name := numbered_name stem counter suffix in
      let new_path := parent // new_name in
      if negb (path_exists w new_path) then Some new_path
      else unique_name_loop fuel' w parent stem suffix (S counter)
  end.

(** The loop runs at most once more than there are names under [parent]
    ([unique_name_loop_total] below): the bound given here is never used
    up, and the [None] branch is dead code of the model. *)
Definition _get_unique_name (path : Path) : M W Path :=
  let parent := PosixPath.parent path in
  let stem := PosixPath.stem path in
  let suffix := PosixPath.suffix path in
  fun σ =>
    match unique_name_loop (S (List.length (entries (host σ) parent)))
                           (host σ) parent stem suffix 1 with
    | Some new_path => (Ok new_path, σ)
    | None => (Raise OtherException, σ)
    end.

(** The [while True] loop of [_ask_conflict_resolution], by recursion on
    what is left on standard input.  Each case is one way the [try] block
    ends: [input()] returned a line, or raised; the two [except] clauses
    are the [KeyboardInterrupt] case and the [is_Exception] case.  On an
    exhausted input [input()] raises [EOFError], which the second clause
    catches. *)
Fixpoint prompt_loop (pending : list input_event) : M W ConflictAction :=
  match pending with
  | [] =>
      print (MsgInputError OtherException) ;;
      ret SKIP
  | Line s :: rest =>
      set_stdin rest ;;
      let choice := PyStr.upper (PyStr.strip s) in
      if String.eqb choice "R" then ret REPLACE
      else if String.eqb choice "K" then ret KEEP_BOTH
      else if String.eqb choice "S" then ret SKIP
      else print MsgInvalidChoice ;; prompt_loop rest
  | Interrupted e :: rest =>
      set_stdin rest ;;
      match e with
      | KeyboardInterrupt =>
          print MsgCancelled ;;
          raise (SystemExit 0)
      | _ =>
          if is_Exception e
          then print (MsgInputError e) ;; ret SKIP
          else raise e
      end
  end.

Definition _ask_conflict_resolution (source destination : Path) : M W ConflictAction :=
  print (MsgConflict source destination) ;;
  fun σ => prompt_loop (stdin σ) σ.

(** [default_conflict_action or self._ask_conflict_resolution(...)]: an
    enumeration member is truthy, so a supplied default is the action. *)
Definition resolve_conflict (default_conflict_action : option ConflictAction)
    (source_path dest_item_path : Path) : M W ConflictAction :=
  match default_conflict_action with
  | Some a => ret a
  | None => _ask_conflict_resolution source_path dest_item_path
  end.

(** The [try] statement in the body of [paste]'s [for] loop, for one
    clipboard entry.  [Return Skipped] is the [continue]; the handler is
    the two [except] clauses, which differ in the line they print. *)
Definition paste_entry (dest_path : Path)
    (default_conflict_action : option ConflictAction) (source_path : Path) : M W Outcome :=
  try_except
    (let dest_item_path := dest_path // PosixPath.name source_path in
     conflict <- query (fun w => path_exists w dest_item_path) ;;
     r <- (if conflict then
             action <- resolve_conflict default_conflict_action source_path dest_item_path ;;
             match action with
             | SKIP =>
                 print (MsgSkipped (PosixPath.name source_path)) ;;
                 ret (Return Skipped)
             | REPLACE =>
                 is_directory <- query (fun w => path_is_dir w dest_item_path) ;;
                 (if is_directory
                  then host_call (fun w => rmtree w dest_item_path)
                  else host_call (fun w => unlink w dest_item_path)) ;;
                 ret (Fallthrough dest_item_path)
             | KEEP_BOTH =>
                 unique <- _get_unique_name dest_item_path ;;
                 ret (Fallthrough unique)
             end
           else ret (Fallthrough dest_item_path)) ;;
     match r with
     | Return o => ret o
     | Fallthrough dest_item_path =>
         s <- get_self ;;
         (if decide (operation_type s = Some COPY)
          then _copy_item source_path dest_item_path ;;
               print (MsgCopied (PosixPath.name source_path) dest_item_path)
          else _move_item source_path dest_item_path ;;
               print (MsgMoved (PosixPath.name source_path) dest_item_path)) ;;
         ret (Succeeded dest_item_path)
     end)
    (fun e =>
       if is_OSError e
       then Some (print (MsgFailed (PosixPath.name source_path) e) ;; ret (Failed e))
       else if is_Exception e
       then Some (print (MsgUnexpected (PosixPath.name source_path) e) ;; ret (Failed e))
       else None).

(** [for source_path in self.clipboard: ...], threading
    [(success_count, failed_count)]. *)
Fixpoint paste_loop (dest_path : Path) (default_conflict_action : option ConflictAction)
    (items : list Path) (counts : nat * nat) : M W (nat * nat) :=
  match items with
  | [] => ret counts
  | source_path :: rest =>
      o <- paste_entry dest_path default_conflict_action source_path ;;
      paste_loop dest_path default_conflict_action rest (tally o counts)
  end.

Definition paste (destination : string)
    (default_conflict_action : option ConflictAction) : M W bool :=
  try_except
    (s <- get_self ;;
     if decide (clipboard s = []) then
       print MsgClipboardEmptyError ;; ret false
     else if decide (operation_type s = None) then
       print MsgNoOperationType ;; ret false
     else
       let dest_path := PosixPath.of_str destination in
       found <- query (fun w => path_exists w dest_path) ;;
       if negb found then
         print (MsgDestMissing destination) ;; ret false
       else
         is_directory <- query (fun w => path_is_dir w dest_path) ;;
         if negb is_directory then
           print (MsgDestNotDir destination) ;; ret false
         else
           counts <- paste_loop dest_path default_conflict_action (clipboard s) (0, 0) ;;
           s <- get_self ;;
           (if (bool_decide (operation_type s = Some CUT) && Nat.eqb (snd counts) 0)%bool
            then set_clipboard [] ;; set_operation_type None
            else ret tt) ;;
           print (MsgSummary (fst counts) (snd counts)) ;;
           ret (Nat.ltb 0 (fst counts)))
    (fun e => if is_Exception e
              then Some (print (MsgPasteError e) ;; ret false)
              else None).

Definition clear_clipboard : M W unit :=
  set_clipboard [] ;;
  set_operation_type None ;;
  print MsgCleared.

Definition show_clipboard : M W unit :=
  s <- get_self ;;
  if decide (clipboard s = []) then
    print MsgClipboardIsEmpty
  else
    let op_type := match operation_type s with
                   | Some op => OperationType_value op
                   | None => "unknown"
                   end in
    print (MsgClipboardHeader op_type) ;;
    print_items (clipboard s).

(** ** main *)

(** [sys.exit(code)] *)
Definition sys_exit {A} (code : Z) : M W A := raise (SystemExit code).

Definition main (argv : list string) : M W unit :=
  set_self __init__ ;;
  match argv with
  | [] | [_] => print MsgUsage ;; sys_exit 1
  | _ :: arg1 :: args =>
      let command := PyStr.lower arg1 in
      try_except
        (if String.eqb command "copy" then
           match args with
           | [] => print (MsgNeedPath "copy") ;; sys_exit 1
           | paths => success <- copy paths ;; sys_exit (if success then 0 else 1)%Z
           end
         else if String.eqb command "cut" then
           match args with
           | [] => print (MsgNeedPath "cut") ;; sys_exit 1
           | paths => success <- cut paths ;; sys_exit (if success then 0 else 1)%Z
           end
         else if String.eqb command "paste" then
           match args with
           | [] => print MsgNeedDestination ;; sys_exit 1
           | destination :: _ =>
               success <- paste destination None ;;
               sys_exit (if success then 0 else 1)%Z
           end
         else if String.eqb command "show" then
           show_clipboard ;; sys_exit 0
         else if String.eqb command "clear" then
           clear_clipboard ;; sys_exit 0
         else
           print (MsgUnknownCommand command) ;; print MsgUsage ;; sys_exit 1)
        (fun e =>
           match e with
           | KeyboardInterrupt => Some (print MsgCancelled ;; sys_exit 130)
           | _ => if is_Exception e
                  then Some (print (MsgTopLevelError e) ;; sys_exit 1)
                  else None
           end)
  end.

(** ** Specification-side definitions *)

(** The outcome of every entry of a batch, in clipboard order: the same
    iteration as [paste_loop], keeping the outcomes instead of counting. *)
Fixpoint paste_outcomes (dest_path : Path) (default_conflict_action : option ConflictAction)
    (items : list Path) : M W (list Outcome) :=
  match items with
  | [] => ret []
  | source_path :: rest =>
      o <- paste_entry dest_path default_conflict_action source_path ;;
      os <- paste_outcomes dest_path default_conflict_action rest ;;
      ret (o :: os)
  end.

(** The four checks [paste] makes before it touches anything. *)
Definition paste_validates (σ : Process W) (destination : string) : bool :=
  (negb (bool_decide (clipboard (self σ) = []))
   && negb (bool_decide (operation_type (self σ) = None))
   && path_exists (host σ) (PosixPath.of_str destination)
   && path_is_dir (host σ) (PosixPath.of_str destination))%bool.

(** What staging stores for the path string [s]: [Path(s).absolute()]. *)
Definition staged_path (w : W) (s : string) : Path :=
  PosixPath.absolute (getcwd w) (PosixPath.of_str s).

(** The first path of the list that does not exist, if any. *)
Definition first_missing (w : W) (paths : list string) : option string :=
  List.find (fun s => negb (path_exists w (PosixPath.of_str s))) paths.

(** Every path of the list exists. *)
Definition all_exist (w : W) (paths : list string) : bool :=
  forallb (fun s => path_exists w (PosixPath.of_str s)) paths.

(** The staging method of an intent. *)
Definition stage (op : OperationType) : list string -> M W bool :=
  match op with COPY => copy | CUT => cut end.

(** The state a staging call leaves behind when every path exists. *)
Definition staged (op : OperationType) (paths : list string) (σ : Process W) : Process W :=
  let validated_paths := List.map (staged_path (host σ)) paths in
  mkProcess (mkFileOperations validated_paths (Some op)) (host σ) (stdin σ)
            (stdout σ ++ MsgStaged op (List.length validated_paths)
                       :: List.map MsgItem validated_paths).

(** The state it leaves behind when [s] is the first missing path. *)
Definition rejected (s : string) (σ : Process W) : Process W :=
  mkProcess (self σ) (host σ) (stdin σ) (stdout σ ++ [MsgPathMissing s]).

(** The path tried at counter [k]. *)
Definition candidate (path : Path) (k : nat) : Path :=
  PosixPath.parent path // numbered_name (PosixPath.stem path) k (PosixPath.suffix path).

(** The mutating calls of the host raise nothing but [Exception]s: no
    interrupt arrives in the middle of a transfer. *)
Definition host_raises_exceptions_only : Prop :=
  forall (w : W) e,
    (forall p, snd (rmtree w p) = Some e -> is_Exception e = true) /\
    (forall p, snd (unlink w p) = Some e -> is_Exception e = true) /\
    (forall p q, snd (copytree w p q) = Some e -> is_Exception e = true) /\
    (forall p q, snd (copy2 w p q) = Some e -> is_Exception e = true) /\
    (forall p q, snd (move w p q) = Some e -> is_Exception e = true).

End Engine.

Definition is_succeeded (o : Outcome) : bool :=
  match o with Succeeded _ => true | _ => false end.
Definition is_skipped (o : Outcome) : bool :=
  match o with Skipped => true | _ => false end.
Definition is_failed (o : Outcome) : bool :=
  match o with Failed _ => true | _ => false end.

(** The object state [paste] leaves when the loop ran to its end with
    [failed] failures. *)
Definition clipboard_after (s : FileOperations) (failed : nat) : FileOperations :=
  if (bool_decide (operation_type s = Some CUT) && Nat.eqb failed 0)%bool
  then mkFileOperations [] None
  else s.

(** What the next call of [input()] does with the pending input: the
    line it returns or the exception it raises, and the input left. *)
Definition next_input (pending : list input_event) : res string * list input_event :=
  match pending with
  | [] => (Raise OtherException, [])
  | Line s :: rest => (Ok s, rest)
  | Interrupted e :: rest => (Raise e, rest)
  end.

(** The number of outcomes of one kind. *)
Definition count (p : Outcome -> bool) (os : list Outcome) : nat :=
  List.length (List.filter p os).

(** [m] never changes the component [f] of the process state, whether it
    returns or raises. *)
Definition preserves {W X A} (f : Process W -> X) (m : M W A) : Prop :=
  forall σ, f (snd (m σ)) = f σ.

(** Whatever [m] raises is an [Exception]. *)
Definition raises_exceptions_only {W A} (m : M W A) : Prop :=
  forall σ e σ', m σ = (Raise e, σ') -> is_Exception e = true.

(** The clipboard invariant: no intent exactly when no paths. *)
Definition clipboard_invariant (s : FileOperations) : Prop :=
  operation_type s = None <-> clipboard s = [].

(** The status with which the interpreter ends a process whose top level
    finished as [r]: [SystemExit] carries its code, an uncaught
    [KeyboardInterrupt] ends it with 130, any other uncaught exception
    with 1. *)
Definition exit_status {A} (r : res A) : Z :=
  match r with
  | Ok _ => 0
  | Raise (SystemExit code) => code
  | Raise KeyboardInterrupt => 130
  | Raise _ => 1
  end%Z.

(** ** An in-memory filesystem

    One realisation of [HostFS], to run the code on concrete trees: a table
    from absolute component lists to nodes, a working directory, and a list
    of read-only directories in which every mutation is refused with
    [PermissionError].  The mutating calls follow the documented behaviour
    of [shutil] and [os] on the cases the batch loop can reach. *)

Module MemFS.

Inductive node : Type := File (content : string) | Dir.

Global Instance node_eq_dec : EqDecision node.
Proof. solve_decision. Defined.

Record t : Type := mk {
  cwd : list string;
  tree : list (list string * node);
  readonly : list (list string)
}.

Definition getcwd (w : t) : Path := mkPath "/" (cwd w).

Definition key (w : t) (p : Path) : list string := parts (PosixPath.absolute (getcwd w) p).

Fixpoint lookup (k : list string) (tr : list (list string * node)) : option node :=
  match tr with
  | [] => None
  | (k', n) :: rest => if decide (k' = k) then Some n else lookup k rest
  end.

(** The node at a key; the root directory is always there. *)
Definition node_at (w : t) (k : list string) : option node :=
  match k with
  | [] => Some Dir
  | _ => lookup k (tree w)
  end.

Definition exists_ (w : t) (p : Path) : bool :=
  match node_at w (key w p) with Some _ => true | None => false end.

Definition is_dir (w : t) (p : Path) : bool :=
  match node_at w (key w p) with Some Dir => true | _ => false end.

Definition names (w : t) (d : Path) : list string :=
  omap (fun e => last (fst e)) (tree w).

Definition under (pre k : list string) : bool :=
  bool_decide (take (List.length pre) k = pre).

Definition denied (w : t) (k : list string) : bool :=
  bool_decide (List.removelast k ∈ readonly w).

Definition with_tree (w : t) (tr : list (list string * node)) : t :=
  mk (cwd w) tr (readonly w).

Definition remove_under (pre : list string) (tr : list (list string * node)) :=
  List.filter (fun e => negb (under pre (fst e))) tr.

Definition rebase (src dst : list string) (e : list string * node) : list string * node :=
  (dst ++ drop (List.length src) (fst e), snd e).

Definition subtree (pre : list string) (tr : list (list string * node)) :=
  List.filter (fun e => under pre (fst e)) tr.

Definition is_dir_node (o : option node) : bool :=
  match o with Some Dir => true | _ => false end.

(** [shutil.rmtree(p)] *)
Definition rmtree (w : t) (p : Path) : t * option exn :=
  let k := key w p in
  if negb (is_dir_node (node_at w k)) then (w, Some OSError)
  else if denied w k then (w, Some PermissionError)
  else (with_tree w (remove_under k (tree w)), None).

(** [p.unlink()] *)
Definition unlink (w : t) (p : Path) : t * option exn :=
  let k := key w p in
  match node_at w k with
  | Some (File _) =>
      if denied w k then (w, Some PermissionError)
      else (with_tree w (remove_under k (tree w)), None)
  | _ => (w, Some OSError)
  end.

(** [shutil.copytree(src, dst, dirs_exist_ok=False)] *)
Definition copytree (w : t) (src dst : Path) : t * option exn :=
  let ks := key w src in
  let kd := key w dst in
  if negb (is_dir_node (node_at w ks)) then (w, Some OSError)
  else match node_at w kd with
       | Some _ => (w, Some OSError)
       | None =>
           if denied w kd then (w, Some PermissionError)
           else (with_tree w (tree w ++ List.map (rebase ks kd) (subtree ks (tree w))), None)
       end.

(** [shutil.copy2(src, dst)]: into [dst] when it is a directory. *)
Definition copy2 (w : t) (src dst : Path) : t * option exn :=
  let ks := key w src in
  let kd := if is_dir w dst then key w dst ++ [PosixPath.name src] else key w dst in
  match node_at w ks with
  | Some (File content) =>
      if negb (is_dir_node (node_at w (List.removelast kd))) then (w, Some OSError)
      else if is_dir_node (node_at w kd) then (w, Some OSError)
      else if denied w kd then (w, Some PermissionError)
      else (with_tree w (remove_under kd (tree w) ++ [(kd, File content)]), None)
  | _ => (w, Some OSError)
  end.

(** [shutil.move(src, dst)]: into [dst] when it is a directory, refusing
    to overwrite there. *)
Definition move (w : t) (src dst : Path) : t * option exn :=
  let ks := key w src in
  let kd := if is_dir w dst then key w dst ++ [PosixPath.name src] else key w dst in
  match node_at w ks with
  | None => (w, Some OSError)
  | Some n =>
      if (is_dir w dst && bool_decide (is_Some (node_at w kd)))%bool
      then (w, Some OSError)
      else if negb (is_dir_node (node_at w (List.removelast kd))) then (w, Some OSError)
      else if is_dir_node (node_at w kd) then (w, Some OSError)
      else if (denied w ks || denied w kd)%bool then (w, Some PermissionError)
      else (with_tree w (remove_under ks (remove_under kd (tree w))
                         ++ List.map (rebase ks kd) (subtree ks (tree w))), None)
  end.

Lemma lookup_names (k : list string) (n : string) tr v :
  lookup (k ++ [n]) tr = Some v -> n ∈ omap (fun e => last (fst e)) tr.
Proof.
  induction tr as [|[k' v'] tr IH]; simpl; [discriminate|].
  destruct (decide (k' = k ++ [n])) as [->|Hne].
  - intros _. rewrite last_snoc. apply list_elem_of_here.
  - intros Hl. destruct (last k'); [apply list_elem_of_further|]; auto.
Qed.

Lemma key_joinname (w : t) (d : Path) (n : string) :
  n <> "" -> exists pre, key w (d // n) = pre ++ [n].
Proof.
  intros Hn. unfold key, PosixPath.joinname, PosixPath.absolute.
  destruct (String.eqb_spec n ""); [contradiction|]. simpl.
  destruct (String.eqb (root d) ""); simpl.
  - exists (cwd w ++ parts d). by rewrite app_assoc.
  - by exists (parts d).
Qed.

Lemma names_complete (w : t) (d : Path) (n : string) :
  n <> "" -> exists_ w (d // n) = true -> n ∈ names w d.
Proof.
  intros Hn. unfold exists_, names.
  destruct (key_joinname w d n Hn) as [pre ->].
  unfold node_at. destruct (pre ++ [n]) eqn:E.
  { by destruct pre. }
  rewrite <- E. destruct (lookup (pre ++ [n]) (tree w)) eqn:L; [|discriminate].
  intros _. eapply lookup_names, L.
Qed.

End MemFS.

Global Instance MemFS_HostFS : HostFS MemFS.t := {|
  getcwd := MemFS.getcwd;
  getcwd_absolute := fun _ => ltac:(discriminate);
  path_exists := MemFS.exists_;
  path_is_dir := MemFS.is_dir;
  entries := MemFS.names;
  entries_complete := MemFS.names_complete;
  rmtree := MemFS.rmtree;
  unlink := MemFS.unlink;
  copytree := MemFS.copytree;
  copy2 := MemFS.copy2;
  move := MemFS.move
|}.

(** ** A concrete tree

    A source directory with a file and a directory whose name has a dot, and
    a destination that already holds entries of the same names. *)

Module Scenario.

Definition disk : MemFS.t :=
  MemFS.mk ["home"; "u"]
    [ (["src"], MemFS.Dir);
      (["src"; "report.txt"], MemFS.File "new");
      (["src"; "photos.2024"], MemFS.Dir);
      (["src"; "photos.2024"; "a.jpg"], MemFS.File "img");
      (["src"; "notes"], MemFS.File "n");
      (["dst"], MemFS.Dir);
      (["dst"; "report.txt"], MemFS.File "old");
      (["dst"; "report (1).txt"], MemFS.File "older");
      (["dst"; "photos.2024"], MemFS.Dir);
      (["locked"], MemFS.Dir) ]
    [ ["locked"] ].

(** A process that has just created its [FileOperations] object. *)
Definition fresh (input : list input_event) : Process MemFS.t :=
  mkProcess __init__ disk input [].

(** A process whose clipboard already holds [items] under intent [op]. *)
Definition loaded (op : OperationType) (items : list string) (input : list input_event)
  : Process MemFS.t :=
  mkProcess (mkFileOperations (List.map PosixPath.of_str items) (Some op)) disk input [].

(** Two files staged from [/src]; the second batch names a file that is
    gone by the time of the paste. *)
Definition two : list string := ["/src/report.txt"; "/src/notes"].
Definition stale : list string := ["/src/report.txt"; "/src/ghost"].

End Scenario.

(** * Properties *)

(** ** Staging: [copy] and [cut] *)

Section Staging.
Context {W : Type} `{HostFS W}.

Lemma validate_paths_run (paths : list string) (acc : list Path) (σ : Process W) :
  validate_paths paths acc σ =
  match first_missing (host σ) paths with
  | Some s => (Ok (Return false), rejected s σ)
  | None => (Ok (Fallthrough (acc ++ List.map (staged_path (host σ)) paths)), σ)
  end.
Proof.
  revert acc. induction paths as [|s rest IH]; intros acc; simpl.
  - by rewrite app_nil_r.
  - unfold first_missing; simpl. unfold bind at 1, query at 1.
    destruct (path_exists (host σ) (PosixPath.of_str s)); simpl.
    + unfold bind, query. rewrite IH. unfold first_missing.
      destruct (List.find _ rest); [done|].
      by rewrite <- app_assoc.
    + done.
Qed.

Lemma print_items_run (items : list Path) (σ : Process W) :
  print_items items σ =
  (Ok tt, mkProcess (self σ) (host σ) (stdin σ) (stdout σ ++ List.map MsgItem items)).
Proof.
  revert σ. induction items as [|p rest IH]; intros [s w i o]; simpl.
  - unfold ret. by rewrite app_nil_r.
  - unfold bind, print. simpl. rewrite IH. simpl. by rewrite <- app_assoc.
Qed.

Lemma copy_run (paths : list string) (σ : Process W) :
  copy paths σ =
  match first_missing (host σ) paths with
  | Some s => (Ok false, rejected s σ)
  | None => (Ok true, staged COPY paths σ)
  end.
Proof.
  unfold copy, try_except, bind at 1. rewrite validate_paths_run.
  destruct (first_missing (host σ) paths); [done|].
  destruct σ as [s w i o]. unfold bind, set_clipboard, set_operation_type, print; simpl.
  rewrite print_items_run. simpl. unfold staged. simpl.
  by rewrite <- app_assoc.
Qed.

Lemma cut_run (paths : list string) (σ : Process W) :
  cut paths σ =
  match first_missing (host σ) paths with
  | Some s => (Ok false, rejected s σ)
  | None => (Ok true, staged CUT paths σ)
  end.
Proof.
  unfold cut, try_except, bind at 1. rewrite validate_paths_run.
  destruct (first_missing (host σ) paths); [done|].
  destruct σ as [s w i o]. unfold bind, set_clipboard, set_operation_type, print; simpl.
  rewrite print_items_run. simpl. unfold staged. simpl.
  by rewrite <- app_assoc.
Qed.

Lemma first_missing_none (w : W) (paths : list string) :
  first_missing w paths = None <->
  (forall s, s ∈ paths -> path_exists w (PosixPath.of_str s) = true).
Proof.
  unfold first_missing. induction paths as [|s rest IH]; simpl.
  - split; [|done]. intros _ s Hs. by apply elem_of_nil in Hs.
  - destruct (path_exists w (PosixPath.of_str s)) eqn:E; simpl.
    + rewrite IH. split.
      * intros Hr s' Hs'. apply elem_of_cons in Hs' as [->|Hs']; auto.
      * intros Ha s' Hs'. apply Ha. by apply list_elem_of_further.
    + split; [discriminate|]. intros Ha.
      specialize (Ha s (list_elem_of_here _ _)). congruence.
Qed.

Lemma first_missing_some (w : W) (paths : list string) :
  (exists s, s ∈ paths /\ path_exists w (PosixPath.of_str s) = false) ->
  exists s, first_missing w paths = Some s.
Proof.
  intros (s & Hin & Hs). destruct (first_missing w paths) eqn:E; [eauto|].
  pose proof (proj1 (first_missing_none w paths) E s Hin) as Hex.
  rewrite Hex in Hs. discriminate.
Qed.

Lemma stage_run (op : OperationType) (paths : list string) (σ : Process W) :
  stage op paths σ =
  match first_missing (host σ) paths with
  | Some s => (Ok false, rejected s σ)
  | None => (Ok true, staged op paths σ)
  end.
Proof. destruct op; [apply copy_run | apply cut_run]. Qed.

Lemma all_exist_first_missing (w : W) (paths : list string) :
  all_exist w paths = true -> first_missing w paths = None.
Proof.
  unfold all_exist, first_missing. induction paths as [|s rest IH]; simpl; [done|].
  destruct (path_exists w (PosixPath.of_str s)); simpl; [exact IH | discriminate].
Qed.

Lemma staged_path_absolute (w : W) (s : string) : root (staged_path w s) <> "".
Proof.
  unfold staged_path, PosixPath.absolute.
  destruct (String.eqb_spec (root (PosixPath.of_str s)) ""); simpl; [|done].
  apply getcwd_absolute.
Qed.

(** C6 (as amended): a staging call that succeeds returns [True]; the
    count of items staged, which is the length of the input list, is what
    it prints and the length of the clipboard it leaves. *)
Theorem stage_success_reports_count
    (op : OperationType) (paths : list string) (σ σ' : Process W) (r : bool) :
  stage op paths σ = (Ok r, σ') -> r = true ->
  List.length (clipboard (self σ')) = List.length paths /\
  stdout σ' = stdout σ ++ MsgStaged op (List.length paths)
                          :: List.map MsgItem (clipboard (self σ')).
Proof.
  rewrite stage_run. destruct (first_missing (host σ) paths).
  - intros [= <- _] ?. discriminate.
  - intros [= _ <-] _. unfold staged; simpl.
    by rewrite length_map.
Qed.

(** C7: a staging call on a list with a missing path returns [False] and
    leaves clipboard, intent and filesystem as they were. *)
Theorem stage_missing_path_changes_nothing
    (op : OperationType) (paths : list string) (σ : Process W) :
  (exists s, s ∈ paths /\ path_exists (host σ) (PosixPath.of_str s) = false) ->
  exists σ', stage op paths σ = (Ok false, σ') /\
             self σ' = self σ /\ host σ' = host σ.
Proof.
  intros Hmiss. destruct (first_missing_some _ _ Hmiss) as [s Hs].
  rewrite stage_run, Hs. by exists (rejected s σ).
Qed.

(** C9: staging a non-empty list of existing paths and then inspecting the
    clipboard gives exactly those paths, each made absolute, in input order
    with duplicates kept, under the intent of the staging method; this is
    also what [show_clipboard] prints. *)
Theorem stage_then_inspect
    (op : OperationType) (paths : list string) (σ : Process W) :
  paths <> [] -> all_exist (host σ) paths = true ->
  exists σ', stage op paths σ = (Ok true, σ') /\
    clipboard (self σ') = List.map (staged_path (host σ)) paths /\
    operation_type (self σ') = Some op /\
    Forall (fun p => root p <> "") (clipboard (self σ')) /\
    show_clipboard σ' =
      (Ok tt, mkProcess (self σ') (host σ') (stdin σ')
                (stdout σ' ++ MsgClipboardHeader (OperationType_value op)
                           :: List.map MsgItem (List.map (staged_path (host σ)) paths))).
Proof.
  intros Hne Hall. exists (staged op paths σ).
  rewrite stage_run, (all_exist_first_missing _ _ Hall).
  repeat split.
  - apply Forall_forall. intros p Hp. simpl in Hp.
    apply list_elem_of_In, in_map_iff in Hp as (s & <- & _).
    apply staged_path_absolute.
  - unfold show_clipboard, bind, get_self. simpl.
    destruct (decide (List.map (staged_path (host σ)) paths = [])) as [E|_].
    + destruct paths; [done | discriminate].
    + rewrite print_items_run. simpl.
      by rewrite <- app_assoc.
Qed.

End Staging.

(** ** What a computation leaves untouched *)

Section Frames.
Context {W : Type} `{HostFS W}.

Lemma preserves_ret {X A} (f : Process W -> X) (a : A) : preserves f (ret a).
Proof. by intros σ. Qed.

Lemma preserves_raise {X A} (f : Process W -> X) (e : exn) : preserves f (raise (A:=A) e).
Proof. by intros σ. Qed.

Lemma preserves_query {X A} (f : Process W -> X) (q : W -> A) : preserves f (query q).
Proof. by intros σ. Qed.

Lemma preserves_get_self {X} (f : Process W -> X) : preserves f get_self.
Proof. by intros σ. Qed.

Lemma preserves_bind {X A B} (f : Process W -> X) (m : M W A) (k : A -> M W B) :
  preserves f m -> (forall a, preserves f (k a)) -> preserves f (bind m k).
Proof.
  intros Hm Hk σ. unfold bind. specialize (Hm σ).
  destruct (m σ) as [[a|e] σ1]; simpl in *; [|done].
  by rewrite Hk.
Qed.

Lemma preserves_try_except {X A} (f : Process W -> X) (m : M W A) h :
  preserves f m -> (forall e k, h e = Some k -> preserves f k) ->
  preserves f (try_except m h).
Proof.
  intros Hm Hh σ. unfold try_except. specialize (Hm σ).
  destruct (m σ) as [[a|e] σ1]; simpl in *; [done|].
  destruct (h e) as [k|] eqn:E; [|done].
  by rewrite (Hh e k E).
Qed.

Lemma print_keeps_self msg : preserves (W:=W) self (print msg).
Proof. by intros σ. Qed.

Lemma print_keeps_host msg : preserves (W:=W) host (print msg).
Proof. by intros σ. Qed.

Lemma set_stdin_keeps_self i : preserves (W:=W) self (set_stdin i).
Proof. by intros σ. Qed.

Lemma set_stdin_keeps_host i : preserves (W:=W) host (set_stdin i).
Proof. by intros σ. Qed.

Lemma host_call_keeps_self c : preserves (W:=W) self (host_call c).
Proof. intros σ. unfold host_call. by destruct (c (host σ)). Qed.

End Frames.

Create HintDb frame.
#[export] Hint Resolve preserves_ret preserves_raise preserves_query preserves_get_self
  print_keeps_self print_keeps_host set_stdin_keeps_self set_stdin_keeps_host
  host_call_keeps_self : frame.

(** Walks down a computation built from [bind], [try_except] and case
    analysis, leaving the primitive steps to the [frame] hints. *)
Ltac frame_step :=
  match goal with
  | |- preserves _ (bind _ _) => apply preserves_bind; [|intros ?]
  | |- preserves _ (try_except _ _) =>
      apply preserves_try_except;
      [|let e := fresh "e" in let k := fresh "k" in let Hk := fresh "Hk" in
        intros e k Hk; repeat case_match; simplify_eq]
  | |- preserves _ (if ?b then _ else _) => destruct b
  | |- preserves _ (match ?x with _ => _ end) => destruct x
  | |- preserves _ _ => solve [auto with frame]
  end.

Ltac frame := repeat frame_step.

Section PasteFrames.
Context {W : Type} `{HostFS W}.

Lemma prompt_loop_keeps_self pending : preserves (W:=W) self (prompt_loop pending).
Proof. induction pending as [|[s|e] rest IH]; simpl; frame. Qed.

Lemma prompt_loop_keeps_host pending : preserves (W:=W) host (prompt_loop pending).
Proof. induction pending as [|[s|e] rest IH]; simpl; frame. Qed.

Lemma ask_keeps_self source destination :
  preserves (W:=W) self (_ask_conflict_resolution source destination).
Proof.
  unfold _ask_conflict_resolution. apply preserves_bind; [auto with frame|].
  intros _ σ. apply prompt_loop_keeps_self.
Qed.

Lemma ask_keeps_host source destination :
  preserves (W:=W) host (_ask_conflict_resolution source destination).
Proof.
  unfold _ask_conflict_resolution. apply preserves_bind; [auto with frame|].
  intros _ σ. apply prompt_loop_keeps_host.
Qed.

Lemma resolve_conflict_keeps_self d source destination :
  preserves (W:=W) self (resolve_conflict d source destination).
Proof. destruct d; simpl; [auto with frame | apply ask_keeps_self]. Qed.

Lemma resolve_conflict_keeps_host d source destination :
  preserves (W:=W) host (resolve_conflict d source destination).
Proof. destruct d; simpl; [auto with frame | apply ask_keeps_host]. Qed.

Lemma get_unique_name_keeps_state path (σ : Process W) :
  snd (_get_unique_name path σ) = σ.
Proof. unfold _get_unique_name. by case_match. Qed.

Lemma get_unique_name_keeps_self path : preserves (W:=W) self (_get_unique_name path).
Proof. intros σ. by rewrite get_unique_name_keeps_state. Qed.

Lemma copy_item_keeps_self source destination :
  preserves (W:=W) self (_copy_item source destination).
Proof. unfold _copy_item, wrap_error. frame. Qed.

Lemma move_item_keeps_self source destination :
  preserves (W:=W) self (_move_item source destination).
Proof. unfold _move_item, wrap_error. frame. Qed.

End PasteFrames.

#[export] Hint Resolve resolve_conflict_keeps_self resolve_conflict_keeps_host
  get_unique_name_keeps_self copy_item_keeps_self move_item_keeps_self : frame.

Section PasteLoop.
Context {W : Type} `{HostFS W}.

Lemma paste_entry_keeps_self dest_path d source_path :
  preserves (W:=W) self (paste_entry dest_path d source_path).
Proof. unfold paste_entry. frame. Qed.

(** The handler of [paste_entry] catches every [Exception]: what leaves
    an iteration is a [BaseException] that is not one. *)
Lemma paste_entry_raises_only_base dest_path d source_path (σ σ' : Process W) e :
  paste_entry dest_path d source_path σ = (Raise e, σ') -> is_Exception e = false.
Proof.
  unfold paste_entry, try_except.
  match goal with |- context [match ?body σ with _ => _ end] => destruct (body σ) as [[o|e1] σ1] end.
  - discriminate.
  - destruct (is_OSError e1) eqn:Eos; [discriminate|].
    destruct (is_Exception e1) eqn:Eex; [discriminate|].
    by intros [= <- _].
Qed.

Lemma paste_loop_keeps_self dest_path d items counts :
  preserves (W:=W) self (paste_loop dest_path d items counts).
Proof.
  revert counts. induction items as [|p rest IH]; intros counts; simpl.
  - auto with frame.
  - apply preserves_bind; [apply paste_entry_keeps_self | intros o; apply IH].
Qed.

Lemma paste_outcomes_keeps_self dest_path d items :
  preserves (W:=W) self (paste_outcomes dest_path d items).
Proof.
  induction items as [|p rest IH]; simpl; [auto with frame|].
  apply preserves_bind; [apply paste_entry_keeps_self | intros o].
  apply preserves_bind; [apply IH | auto with frame].
Qed.

Lemma paste_outcomes_raises_only_base dest_path d items (σ σ' : Process W) e :
  paste_outcomes dest_path d items σ = (Raise e, σ') -> is_Exception e = false.
Proof.
  revert σ. induction items as [|p rest IH]; intros σ; simpl; [discriminate|].
  unfold bind at 1.
  destruct (paste_entry dest_path d p σ) as [[o|e1] σ1] eqn:E.
  - unfold bind at 1.
    destruct (paste_outcomes dest_path d rest σ1) as [[os|e2] σ2] eqn:E2.
    + discriminate.
    + intros [= <- <-]. eapply IH, E2.
  - intros [= <- _]. eapply paste_entry_raises_only_base, E.
Qed.

(** The counters of the loop are a left fold of [tally] over the
    outcomes. *)
Lemma paste_loop_outcomes dest_path d items counts (σ : Process W) :
  paste_loop dest_path d items counts σ =
  match paste_outcomes dest_path d items σ with
  | (Ok os, σ') => (Ok (foldl (fun c o => tally o c) counts os), σ')
  | (Raise e, σ') => (Raise e, σ')
  end.
Proof.
  revert counts σ. induction items as [|p rest IH]; intros counts σ; simpl; [done|].
  unfold bind.
  destruct (paste_entry dest_path d p σ) as [[o|e1] σ1]; [|done].
  rewrite IH.
  by destruct (paste_outcomes dest_path d rest σ1) as [[os|e2] σ2].
Qed.

Lemma paste_outcomes_length dest_path d items (σ σ' : Process W) os :
  paste_outcomes dest_path d items σ = (Ok os, σ') ->
  List.length os = List.length items.
Proof.
  revert σ σ' os. induction items as [|p rest IH]; intros σ σ' os; simpl.
  - by intros [= <- _].
  - unfold bind at 1.
    destruct (paste_entry dest_path d p σ) as [[o|e1] σ1]; [|discriminate].
    unfold bind at 1.
    destruct (paste_outcomes dest_path d rest σ1) as [[os'|e2] σ2] eqn:E2; [|discriminate].
    intros [= <- _]. simpl. f_equal. eapply IH, E2.
Qed.

End PasteLoop.

(** ** Counting outcomes *)

Lemma tally_fold (os : list Outcome) (counts : nat * nat) :
  foldl (fun c o => tally o c) counts os =
  (fst counts + count is_succeeded os, snd counts + count is_failed os).
Proof.
  revert counts. unfold count.
  induction os as [|o os IH]; intros [s f]; simpl.
  - f_equal; lia.
  - rewrite IH. destruct o; simpl; f_equal; lia.
Qed.

Lemma count_partition (os : list Outcome) :
  count is_succeeded os + count is_skipped os + count is_failed os = List.length os.
Proof.
  unfold count. induction os as [|o os IH]; simpl; [done|].
  destruct o; simpl; lia.
Qed.

Lemma count_pos_iff (p : Outcome -> bool) (os : list Outcome) :
  0 < count p os <-> exists o, o ∈ os /\ p o = true.
Proof.
  unfold count. induction os as [|o os IH]; simpl.
  - split; [lia|]. intros (o & Ho & _). by apply elem_of_nil in Ho.
  - destruct (p o) eqn:E; simpl.
    + split; [|lia]. intros _. exists o. split; [apply list_elem_of_here | done].
    + rewrite IH. split.
      * intros (o' & Ho' & Hp). exists o'. split; [by apply list_elem_of_further | done].
      * intros (o' & Ho' & Hp). apply elem_of_cons in Ho' as [->|Ho']; [congruence|eauto].
Qed.

(** ** paste *)

Section Paste.
Context {W : Type} `{HostFS W}.

Lemma paste_validates_inv (σ : Process W) destination :
  paste_validates σ destination = true ->
  clipboard (self σ) <> [] /\ operation_type (self σ) <> None /\
  path_exists (host σ) (PosixPath.of_str destination) = true /\
  path_is_dir (host σ) (PosixPath.of_str destination) = true.
Proof.
  unfold paste_validates. rewrite !andb_true_iff, !negb_true_iff, !bool_decide_eq_false.
  tauto.
Qed.

(** A validated [paste], in terms of the outcomes of its entries. *)
Lemma paste_run destination d (σ : Process W) :
  paste_validates σ destination = true ->
  paste destination d σ =
  match paste_outcomes (PosixPath.of_str destination) d (clipboard (self σ)) σ with
  | (Ok os, σ1) =>
      (Ok (Nat.ltb 0 (count is_succeeded os)),
       mkProcess (clipboard_after (self σ) (count is_failed os))
                 (host σ1) (stdin σ1)
                 (stdout σ1 ++ [MsgSummary (count is_succeeded os) (count is_failed os)]))
  | (Raise e, σ1) => (Raise e, σ1)
  end.
Proof.
  intros Hv. apply paste_validates_inv in Hv as (Hc & Ho & He & Hd).
  unfold paste, try_except, bind at 1, get_self.
  destruct (decide (clipboard (self σ) = [])); [done|].
  destruct (decide (operation_type (self σ) = None)); [done|].
  unfold bind at 1, query at 1. rewrite He. simpl.
  unfold bind at 1, query at 1. rewrite Hd. simpl.
  unfold bind at 1. rewrite paste_loop_outcomes.
  pose proof (paste_outcomes_keeps_self (PosixPath.of_str destination) d
                (clipboard (self σ)) σ) as Hself.
  destruct (paste_outcomes (PosixPath.of_str destination) d (clipboard (self σ)) σ)
    as [[os|e] σ1] eqn:E; simpl in Hself.
  - rewrite tally_fold. simpl. unfold bind at 1. simpl.
    unfold clipboard_after. rewrite <- Hself.
    destruct (bool_decide (operation_type (self σ1) = Some CUT)
              && Nat.eqb (count is_failed os) 0)%bool; by destruct σ1.
  - by rewrite (paste_outcomes_raises_only_base _ _ _ _ _ _ E).
Qed.

(** An entry whose conflict is resolved as [SKIP] ends at [continue]:
    one line is printed, and nothing else happens after the resolution. *)
Lemma paste_entry_skip dest_path d source_path (σ σ1 : Process W) :
  path_exists (host σ) (dest_path // PosixPath.name source_path) = true ->
  resolve_conflict d source_path (dest_path // PosixPath.name source_path) σ = (Ok SKIP, σ1) ->
  paste_entry dest_path d source_path σ =
  (Ok Skipped, mkProcess (self σ1) (host σ1) (stdin σ1)
                 (stdout σ1 ++ [MsgSkipped (PosixPath.name source_path)])).
Proof.
  intros Hc Hr. unfold paste_entry, try_except.
  unfold bind at 1, query at 1. rewrite Hc.
  unfold bind at 1. unfold bind at 1. rewrite Hr.
  reflexivity.
Qed.

(** C1: after a validated [paste] whose loop ran to its end: under CUT
    with no failed entry the clipboard is empty and the intent reset; under
    CUT with a failed entry, and under COPY whatever the outcomes, the
    clipboard and the intent are the ones before the call. *)
Theorem paste_clipboard_postcondition destination d (σ σ1 : Process W) os :
  paste_validates σ destination = true ->
  paste_outcomes (PosixPath.of_str destination) d (clipboard (self σ)) σ = (Ok os, σ1) ->
  exists b σ', paste destination d σ = (Ok b, σ') /\
    (operation_type (self σ) = Some CUT -> count is_failed os = 0 ->
       self σ' = mkFileOperations [] None) /\
    (operation_type (self σ) = Some CUT -> 0 < count is_failed os ->
       self σ' = self σ) /\
    (operation_type (self σ) = Some COPY -> self σ' = self σ).
Proof.
  intros Hv Hos. rewrite (paste_run _ _ _ Hv), Hos.
  eexists _, _. split; [reflexivity|]. simpl. unfold clipboard_after.
  repeat split.
  - intros -> ->. by rewrite bool_decide_eq_true_2.
  - intros _ Hf. destruct (count is_failed os); [lia|].
    by rewrite andb_false_r.
  - intros ->. by rewrite bool_decide_eq_false_2.
Qed.

(** When the loop is cut short by an exception, [paste] lets it through
    and the clipboard is as before. *)
Lemma paste_aborted_keeps_clipboard destination d (σ σ1 : Process W) e :
  paste_validates σ destination = true ->
  paste_outcomes (PosixPath.of_str destination) d (clipboard (self σ)) σ = (Raise e, σ1) ->
  paste destination d σ = (Raise e, σ1) /\ self σ1 = self σ.
Proof.
  intros Hv Hos. rewrite (paste_run _ _ _ Hv), Hos. split; [done|].
  pose proof (paste_outcomes_keeps_self (PosixPath.of_str destination) d
                (clipboard (self σ)) σ) as Hs.
  by rewrite Hos in Hs.
Qed.

(** C3: a validated [paste] returns [True] exactly when some entry
    succeeded; a batch of skipped entries only returns [False]. *)
Theorem paste_success_iff_entry_succeeded destination d (σ σ1 : Process W) os :
  paste_validates σ destination = true ->
  paste_outcomes (PosixPath.of_str destination) d (clipboard (self σ)) σ = (Ok os, σ1) ->
  exists b σ', paste destination d σ = (Ok b, σ') /\
    (b = true <-> exists final, Succeeded final ∈ os) /\
    ((forall o, o ∈ os -> o = Skipped) -> b = false).
Proof.
  intros Hv Hos. rewrite (paste_run _ _ _ Hv), Hos.
  eexists _, _. split; [reflexivity|].
  assert (Nat.ltb 0 (count is_succeeded os) = true <-> exists final, Succeeded final ∈ os)
    as Hiff.
  { rewrite Nat.ltb_lt, count_pos_iff. split.
    - intros ([final| |e] & Ho & Hp); try discriminate. eauto.
    - intros (final & Ho). eauto. }
  split; [exact Hiff|].
  intros Hall. apply not_true_is_false. intros Ht.
  apply Hiff in Ht as (final & Ho). by specialize (Hall _ Ho).
Qed.

(** C2 (as amended): a validated [paste] returns a boolean and prints a
    summary of two counts, the succeeded and the failed entries; the
    entries that are neither are the skipped ones.  An entry whose conflict
    is resolved as [SKIP] leaves both counters and the filesystem as they
    were. *)
Theorem paste_skip_accounting destination d (σ σ1 : Process W) os :
  paste_validates σ destination = true ->
  paste_outcomes (PosixPath.of_str destination) d (clipboard (self σ)) σ = (Ok os, σ1) ->
  (exists b σ', paste destination d σ = (Ok b, σ') /\
     last (stdout σ') = Some (MsgSummary (count is_succeeded os) (count is_failed os))) /\
  count is_succeeded os + count is_failed os + count is_skipped os
    = List.length (clipboard (self σ)) /\
  (forall dest_path source_path (τ τ1 : Process W),
     path_exists (host τ) (dest_path // PosixPath.name source_path) = true ->
     resolve_conflict d source_path (dest_path // PosixPath.name source_path) τ
       = (Ok SKIP, τ1) ->
     exists τ', paste_entry dest_path d source_path τ = (Ok Skipped, τ') /\
                host τ' = host τ /\
                forall counts, tally Skipped counts = counts).
Proof.
  intros Hv Hos. split; [|split].
  - rewrite (paste_run _ _ _ Hv), Hos. eexists _, _. split; [reflexivity|].
    simpl. apply last_snoc.
  - rewrite <- (paste_outcomes_length _ _ _ _ _ _ Hos).
    pose proof (count_partition os). lia.
  - intros dest_path source_path τ τ1 Hc Hr.
    rewrite (paste_entry_skip _ _ _ _ _ Hc Hr). eexists. split; [reflexivity|].
    split; [|done]. simpl.
    pose proof (resolve_conflict_keeps_host d source_path
                  (dest_path // PosixPath.name source_path) τ) as Hh.
    by rewrite Hr in Hh.
Qed.

End Paste.

(** ** _get_unique_name *)

Section StringFacts.

Lemma append_cons (c : ascii) (s t : string) :
  (String c s ++ t = String c (s ++ t))%string.
Proof. reflexivity. Qed.

Lemma length_append (s t : string) :
  String.length (s ++ t)%string = String.length s + String.length t.
Proof. induction s as [|c s IH]; [done|]. rewrite append_cons. simpl. by rewrite IH. Qed.

Lemma append_cancel_l (s t1 t2 : string) : (s ++ t1 = s ++ t2)%string -> t1 = t2.
Proof.
  induction s as [|c s IH]; [done|]. rewrite !append_cons. intros [= E]. auto.
Qed.

Lemma append_cancel_r (t s1 s2 : string) : (s1 ++ t = s2 ++ t)%string -> s1 = s2.
Proof.
  revert s2. induction s1 as [|c s1 IH]; intros [|c2 s2] E.
  - done.
  - apply (f_equal String.length) in E. rewrite !length_append in E. simpl in E. lia.
  - apply (f_equal String.length) in E. rewrite !length_append in E. simpl in E. lia.
  - rewrite !append_cons in E. injection E as -> E. f_equal. auto.
Qed.

Lemma append_nil_r (s : string) : (s ++ "")%string = s.
Proof. induction s as [|c s IH]; [done|]. by rewrite append_cons, IH. Qed.

Lemma append_nonempty_r (s t : string) : t <> "" -> (s ++ t)%string <> "".
Proof. destruct s; [done|]. by rewrite append_cons. Qed.

End StringFacts.

Section UniqueName.
Context {W : Type} `{HostFS W}.

Lemma numbered_name_inj (stem suffix : string) (j k : nat) :
  numbered_name stem j suffix = numbered_name stem k suffix -> j = k.
Proof.
  unfold numbered_name. intros E.
  apply append_cancel_l, append_cancel_l, append_cancel_r in E.
  by apply (inj pretty).
Qed.

Lemma numbered_name_nonempty (stem suffix : string) (k : nat) :
  numbered_name stem k suffix <> "".
Proof. unfold numbered_name. by apply append_nonempty_r. Qed.

(** What the bounded loop computes: the first free candidate from
    [counter] on, or nothing when every candidate within the bound
    exists. *)
Lemma unique_name_loop_run (w : W) (path : Path) (fuel counter : nat) :
  match unique_name_loop fuel w (PosixPath.parent path) (PosixPath.stem path)
                         (PosixPath.suffix path) counter with
  | Some p =>
      exists k, counter <= k < counter + fuel /\ p = candidate path k /\
                path_exists w (candidate path k) = false /\
                forall j, counter <= j < k -> path_exists w (candidate path j) = true
  | None => forall j, counter <= j < counter + fuel -> path_exists w (candidate path j) = true
  end.
Proof.
  revert counter. induction fuel as [|fuel IH]; intros counter; simpl.
  - intros j Hj. lia.
  - fold (candidate path counter).
    destruct (path_exists w (candidate path counter)) eqn:E; simpl.
    + specialize (IH (S counter)).
      destruct (unique_name_loop fuel w _ _ _ (S counter)) as [p|].
      * destruct IH as (k & Hk & -> & Hfree & Hbelow). exists k.
        repeat split; [lia | lia | done |].
        intros j Hj. destruct (decide (j = counter)) as [->|]; [done|].
        apply Hbelow. lia.
      * intros j Hj. destruct (decide (j = counter)) as [->|]; [done|].
        apply IH. lia.
    + exists counter. repeat split; [lia | lia | done |]. intros j Hj. lia.
Qed.

(** The bound [_get_unique_name] gives the loop is never used up: the
    candidates are pairwise distinct names, and only finitely many names
    exist under the parent. *)
Lemma unique_name_loop_total (w : W) (path : Path) (counter : nat) :
  unique_name_loop (S (List.length (entries w (PosixPath.parent path)))) w
    (PosixPath.parent path) (PosixPath.stem path) (PosixPath.suffix path) counter <> None.
Proof.
  intros Hnone.
  pose proof (unique_name_loop_run w path
                (S (List.length (entries w (PosixPath.parent path)))) counter) as Hrun.
  rewrite Hnone in Hrun.
  set (n := List.length (entries w (PosixPath.parent path))) in *.
  set (names := (fun j => numbered_name (PosixPath.stem path) j (PosixPath.suffix path))
                  <$> seq counter (S n)).
  assert (NoDup names) as Hnd.
  { apply NoDup_fmap_2_strong; [|apply NoDup_seq].
    intros j k _ _. apply numbered_name_inj. }
  assert (forall x, x ∈ names -> x ∈ entries w (PosixPath.parent path)) as Hsub.
  { intros x Hx. apply list_elem_of_fmap in Hx as (j & -> & Hj).
    apply elem_of_seq in Hj.
    apply entries_complete; [apply numbered_name_nonempty|].
    apply Hrun. lia. }
  pose proof (submseteq_length _ _ (NoDup_submseteq _ _ Hnd Hsub)) as Hlen.
  unfold names in Hlen. rewrite length_fmap, length_seq in Hlen.
  fold n in Hlen. lia.
Qed.

(** C5 (as amended): [_get_unique_name] returns the first path
    [parent / "stem (k)suffix"], k = 1, 2, ..., that does not exist, and
    changes nothing.  Stem and suffix are those of pathlib, for a directory
    as for a file: the counter goes before the last dot-suffix of the name,
    and after the whole name only when the name has no such suffix. *)
Theorem get_unique_name_first_free (path : Path) (σ : Process W) :
  exists k, 1 <= k /\
    _get_unique_name path σ = (Ok (candidate path k), σ) /\
    path_exists (host σ) (candidate path k) = false /\
    (forall j, 1 <= j < k -> path_exists (host σ) (candidate path j) = true) /\
    (PosixPath.split_point (PosixPath.name path) = None ->
       candidate path k
       = PosixPath.parent path // (PosixPath.name path ++ " (" ++ pretty k ++ ")")%string).
Proof.
  pose proof (unique_name_loop_run (host σ) path
                (S (List.length (entries (host σ) (PosixPath.parent path)))) 1) as Hrun.
  pose proof (unique_name_loop_total (host σ) path 1) as Htot.
  unfold _get_unique_name.
  destruct (unique_name_loop _ (host σ) _ _ _ 1) as [p|]; [|done].
  destruct Hrun as (k & Hk & -> & Hfree & Hbelow).
  exists k. repeat split; [lia | done | done |].
  intros Hsp. unfold candidate, numbered_name, PosixPath.stem, PosixPath.suffix.
  rewrite Hsp. by rewrite append_nil_r.
Qed.

End UniqueName.

(** ** The clipboard invariant *)

Section Invariant.
Context {W : Type} `{HostFS W}.

(** A [paste] that fails one of its four checks prints one line and
    returns [False]. *)
Lemma paste_rejected destination d (σ : Process W) :
  paste_validates σ destination = false ->
  exists msg, paste destination d σ =
    (Ok false, mkProcess (self σ) (host σ) (stdin σ) (stdout σ ++ [msg])).
Proof.
  intros Hv. unfold paste, try_except, bind at 1, get_self.
  destruct (decide (clipboard (self σ) = [])) as [|Hc]; [by eexists|].
  destruct (decide (operation_type (self σ) = None)) as [|Ho]; [by eexists|].
  unfold bind at 1, query at 1.
  destruct (path_exists (host σ) (PosixPath.of_str destination)) eqn:He; [|by eexists].
  simpl. unfold bind at 1, query at 1.
  destruct (path_is_dir (host σ) (PosixPath.of_str destination)) eqn:Hd; [|by eexists].
  exfalso. unfold paste_validates in Hv.
  rewrite He, Hd, !bool_decide_eq_false_2 in Hv by done. discriminate.
Qed.

(** Whatever [paste] does, the object state it leaves is the one it found
    or the empty one. *)
Lemma paste_self_cases destination d (σ : Process W) :
  self (snd (paste destination d σ)) = self σ \/
  self (snd (paste destination d σ)) = mkFileOperations [] None.
Proof.
  destruct (paste_validates σ destination) eqn:Hv.
  - rewrite (paste_run _ _ _ Hv).
    pose proof (paste_outcomes_keeps_self (PosixPath.of_str destination) d
                  (clipboard (self σ)) σ) as Hs.
    destruct (paste_outcomes _ d (clipboard (self σ)) σ) as [[os|e] σ1]; simpl in *.
    + unfold clipboard_after. case_match; auto.
    + auto.
  - destruct (paste_rejected destination d σ Hv) as [msg ->]. auto.
Qed.

Lemma clipboard_invariant_empty : clipboard_invariant (mkFileOperations [] None).
Proof. by split. Qed.

(** C8 (as amended): the invariant holds of a new object, and every
    operation carries it over: [copy] and [cut] on a non-empty list of
    paths, [paste], [clear_clipboard] and [show_clipboard]. *)
Theorem clipboard_invariant_preserved (σ : Process W) :
  clipboard_invariant (self σ) ->
  clipboard_invariant __init__ /\
  (forall op paths, paths <> [] ->
     clipboard_invariant (self (snd (stage op paths σ)))) /\
  (forall destination d, clipboard_invariant (self (snd (paste destination d σ)))) /\
  clipboard_invariant (self (snd (clear_clipboard σ))) /\
  clipboard_invariant (self (snd (show_clipboard σ))).
Proof.
  intros Hinv. split; [apply clipboard_invariant_empty|]. repeat split.
  - rewrite stage_run. destruct (first_missing (host σ) paths); [|simpl; discriminate].
    simpl. apply Hinv.
  - rewrite stage_run. destruct (first_missing (host σ) paths); [apply Hinv|].
    simpl. by destruct paths.
  - destruct (paste_self_cases destination d σ) as [-> | ->]; [apply Hinv | done].
  - destruct (paste_self_cases destination d σ) as [-> | ->]; [apply Hinv | done].
  - unfold show_clipboard, bind, get_self.
    destruct (decide (clipboard (self σ) = [])); simpl; [apply Hinv|].
    rewrite print_items_run. apply Hinv.
  - unfold show_clipboard, bind, get_self.
    destruct (decide (clipboard (self σ) = [])); simpl; [apply Hinv|].
    rewrite print_items_run. apply Hinv.
Qed.

End Invariant.

(** ** The conflict prompt *)

Section Prompt.
Context {W : Type} `{HostFS W}.

Lemma prompt_loop_read_error (σ : Process W) e rest :
  next_input (stdin σ) = (Raise e, rest) -> is_Exception e = true ->
  prompt_loop (stdin σ) σ =
  (Ok SKIP, mkProcess (self σ) (host σ) rest (stdout σ ++ [MsgInputError e])).
Proof.
  destruct σ as [s w i o]; simpl. destruct i as [|[l|e'] i']; simpl.
  - by intros [= <- <-] _.
  - discriminate.
  - intros [= -> ->] He. by destruct e.
Qed.


End Prompt.

(** ** A batch with a default action runs to its end *)

Section Totality.
Context {W : Type} `{HostFS W}.

Lemma reo_ret {A} (a : A) : raises_exceptions_only (W:=W) (ret a).
Proof. intros σ e σ'. discriminate. Qed.

Lemma reo_print msg : raises_exceptions_only (W:=W) (print msg).
Proof. intros σ e σ'. discriminate. Qed.

Lemma reo_query {A} (q : W -> A) : raises_exceptions_only (W:=W) (query q).
Proof. intros σ e σ'. discriminate. Qed.

Lemma reo_get_self : raises_exceptions_only (W:=W) get_self.
Proof. intros σ e σ'. discriminate. Qed.

Lemma reo_raise {A} (e : exn) :
  is_Exception e = true -> raises_exceptions_only (W:=W) (raise (A:=A) e).
Proof. intros He σ e' σ'. by intros [= <- _]. Qed.

Lemma reo_bind {A B} (m : M W A) (k : A -> M W B) :
  raises_exceptions_only m -> (forall a, raises_exceptions_only (k a)) ->
  raises_exceptions_only (W:=W) (bind m k).
Proof.
  intros Hm Hk σ e σ'. unfold bind.
  destruct (m σ) as [[a|e1] σ1] eqn:E.
  - apply Hk.
  - intros [= <- _]. eapply Hm, E.
Qed.

Lemma reo_try_except {A} (m : M W A) h :
  raises_exceptions_only m ->
  (forall e k, h e = Some k -> raises_exceptions_only k) ->
  raises_exceptions_only (W:=W) (try_except m h).
Proof.
  intros Hm Hh σ e σ'. unfold try_except.
  destruct (m σ) as [[a|e1] σ1] eqn:E; [discriminate|].
  destruct (h e1) as [k|] eqn:Eh.
  - eapply Hh, Eh.
  - intros [= <- _]. eapply Hm, E.
Qed.

Lemma reo_host_call (c : W -> W * option exn) :
  (forall w e, snd (c w) = Some e -> is_Exception e = true) ->
  raises_exceptions_only (W:=W) (host_call c).
Proof.
  intros Hc σ e σ'. unfold host_call. specialize (Hc (host σ)).
  destruct (c (host σ)) as [w' [e1|]]; [|discriminate].
  intros [= <- _]. by apply Hc.
Qed.

Lemma reo_get_unique_name path : raises_exceptions_only (W:=W) (_get_unique_name path).
Proof.
  intros σ e σ'. unfold _get_unique_name. case_match; [discriminate|].
  by intros [= <- _].
Qed.

(** With a default action, and a host that raises only [Exception]s, the
    [try] statement of an iteration always ends in one of its three
    exits. *)
Lemma paste_entry_returns dest_path a source_path (σ : Process W) :
  host_raises_exceptions_only ->
  exists o σ', paste_entry dest_path (Some a) source_path σ = (Ok o, σ').
Proof.
  intros Hhost.
  unfold paste_entry, try_except.
  match goal with
  | |- context [match ?body σ with _ => _ end] =>
      assert (raises_exceptions_only body) as Hbody; [|destruct (body σ) as [[o|e] σ1] eqn:E]
  end.
  { apply reo_bind; [apply reo_query|]. intros conflict.
    apply reo_bind.
    - destruct conflict; [|apply reo_ret].
      apply reo_bind; [apply reo_ret|]. intros [| |].
      + apply reo_bind; [apply reo_query|]. intros isd.
        apply reo_bind; [|intros _; apply reo_ret].
        destruct isd; apply reo_host_call; intros w e; apply Hhost.
      + apply reo_bind; [apply reo_get_unique_name | intros; apply reo_ret].
      + apply reo_bind; [apply reo_print | intros; apply reo_ret].
    - intros [p|o]; [|apply reo_ret].
      apply reo_bind; [apply reo_get_self|]. intros s.
      apply reo_bind; [|intros; apply reo_ret].
      assert (forall what e k, wrap_error (W:=W) what e = Some k ->
                               raises_exceptions_only k) as Hwrap.
      { intros what e k. unfold wrap_error.
        destruct e; simpl; intros [= <-]; by apply reo_raise. }
      destruct (decide (operation_type s = Some COPY)) as [Hop|Hop].
      + apply reo_bind; [|intros; apply reo_print].
        unfold _copy_item. apply reo_try_except; [|apply Hwrap].
        apply reo_bind; [apply reo_query|]. intros isd.
        destruct isd; apply reo_host_call; intros w e; apply Hhost.
      + apply reo_bind; [|intros; apply reo_print].
        unfold _move_item. apply reo_try_except; [|apply Hwrap].
        apply reo_host_call; intros w e; apply Hhost. }
  - eauto.
  - pose proof (Hbody σ e σ1 E) as He. rewrite He.
    destruct (is_OSError e); by eexists _, _.
Qed.

Lemma paste_outcomes_returns dest_path a items (σ : Process W) :
  host_raises_exceptions_only ->
  exists os σ', paste_outcomes dest_path (Some a) items σ = (Ok os, σ').
Proof.
  intros Hhost. revert σ. induction items as [|p rest IH]; intros σ; simpl.
  - by eexists _, _.
  - unfold bind at 1.
    destruct (paste_entry_returns dest_path a p σ Hhost) as (o & σ1 & ->).
    unfold bind at 1. destruct (IH σ1) as (os & σ2 & ->).
    by eexists _, _.
Qed.

(** A validated [paste] with a default action returns. *)
Lemma paste_with_default_returns destination a (σ : Process W) :
  host_raises_exceptions_only ->
  paste_validates σ destination = true ->
  exists b σ', paste destination (Some a) σ = (Ok b, σ').
Proof.
  intros Hhost Hv. rewrite (paste_run _ _ _ Hv).
  destruct (paste_outcomes_returns (PosixPath.of_str destination) a
              (clipboard (self σ)) σ Hhost) as (os & σ1 & ->).
  by eexists _, _.
Qed.

End Totality.

(** * The code run on the concrete tree *)

Module Runs.
Import Scenario.

(** The in-memory filesystem raises only [PermissionError] and
    [OSError]. *)
Lemma disk_raises_exceptions_only : host_raises_exceptions_only (W:=MemFS.t).
Proof.
  intros w e. repeat split; intros p; [| |intros q..]; simpl;
    unfold MemFS.rmtree, MemFS.unlink, MemFS.copytree, MemFS.copy2, MemFS.move;
    repeat case_match; simpl; intros [= <-]; reflexivity.
Qed.

(** C6, counterexample: staging two existing paths returns [True], which
    as an integer is 1, not the count 2. *)
Lemma copy_returns_flag_not_count :
  fst (copy two (fresh [])) = Ok true /\
  int_of_bool true <> List.length two /\
  fst (cut two (fresh [])) = Ok true.
Proof.
  split; [reflexivity|]. split; [|reflexivity].
  vm_compute. lia.
Qed.

(** On the concrete tree: two files staged by [copy]. *)
Lemma stage_success_reports_count_witness :
  List.length (clipboard (self (snd (stage COPY two (fresh []))))) = 2 /\
  stdout (snd (stage COPY two (fresh [])))
  = [ MsgStaged COPY 2; MsgItem (mkPath "/" ["src"; "report.txt"]);
      MsgItem (mkPath "/" ["src"; "notes"]) ].
Proof.
  destruct (stage_success_reports_count COPY two (fresh [])
              (snd (stage COPY two (fresh []))) true) as [Hlen Hout];
    [reflexivity | reflexivity |].
  split; [exact Hlen | rewrite Hout; reflexivity].
Defined.

(** On the concrete tree: [cut] of a list with a missing path, over a
    clipboard loaded by an earlier [copy]. *)
Lemma stage_missing_path_changes_nothing_witness :
  exists σ', stage CUT stale (loaded COPY two []) = (Ok false, σ') /\
             self σ' = self (loaded COPY two []) /\
             host σ' = host (loaded COPY two []).
Proof.
  apply (stage_missing_path_changes_nothing CUT stale (loaded COPY two [])).
  exists "/src/ghost". split; [|reflexivity].
  apply list_elem_of_further, list_elem_of_here.
Defined.

(** On the concrete tree, from the working directory [/src]: a relative
    path, its absolute form and the relative path again are three entries,
    in that order. *)
Lemma stage_then_inspect_witness :
  exists σ', stage CUT ["notes"; "/src/notes"; "notes"]
               (mkProcess __init__ (MemFS.mk ["src"] (MemFS.tree disk) []) [] [])
             = (Ok true, σ') /\
    clipboard (self σ')
    = [ mkPath "/" ["src"; "notes"]; mkPath "/" ["src"; "notes"];
        mkPath "/" ["src"; "notes"] ] /\
    operation_type (self σ') = Some CUT.
Proof.
  destruct (stage_then_inspect CUT ["notes"; "/src/notes"; "notes"]
              (mkProcess __init__ (MemFS.mk ["src"] (MemFS.tree disk) []) [] []))
    as (σ' & Hrun & Hclip & Hop & _); [discriminate | reflexivity |].
  exists σ'. repeat split; [exact Hrun | exact Hclip | exact Hop].
Defined.

(** On the concrete tree: a CUT batch that succeeds, a CUT batch with a
    failed entry, and the same batch under COPY. *)
Lemma paste_clipboard_postcondition_witness :
  (exists b σ', paste "/dst" (Some REPLACE) (loaded CUT two []) = (Ok b, σ') /\
                self σ' = mkFileOperations [] None) /\
  (exists b σ', paste "/dst" (Some REPLACE) (loaded CUT stale []) = (Ok b, σ') /\
                self σ' = self (loaded CUT stale [])) /\
  (exists b σ', paste "/dst" (Some REPLACE) (loaded COPY stale []) = (Ok b, σ') /\
                self σ' = self (loaded COPY stale [])).
Proof.
  repeat split.
  - edestruct (paste_clipboard_postcondition "/dst" (Some REPLACE) (loaded CUT two []))
      as (b & σ' & Hrun & Hclear & _ & _); [reflexivity | vm_compute; reflexivity |].
    exists b, σ'. split; [exact Hrun | apply Hclear; reflexivity].
  - edestruct (paste_clipboard_postcondition "/dst" (Some REPLACE) (loaded CUT stale []))
      as (b & σ' & Hrun & _ & Hkeep & _); [reflexivity | vm_compute; reflexivity |].
    exists b, σ'. split; [exact Hrun | apply Hkeep; [reflexivity | vm_compute; lia]].
  - edestruct (paste_clipboard_postcondition "/dst" (Some REPLACE) (loaded COPY stale []))
      as (b & σ' & Hrun & _ & _ & Hcopy); [reflexivity | vm_compute; reflexivity |].
    exists b, σ'. split; [exact Hrun | apply Hcopy; reflexivity].
Defined.

(** On the concrete tree: a batch in which both entries are skipped. *)
Lemma paste_success_iff_entry_succeeded_witness :
  exists σ', paste "/dst" (Some SKIP)
               (loaded COPY ["/src/report.txt"; "/src/photos.2024"] [])
             = (Ok false, σ').
Proof.
  edestruct (paste_success_iff_entry_succeeded "/dst" (Some SKIP)
               (loaded COPY ["/src/report.txt"; "/src/photos.2024"] []))
    as (b & σ' & Hrun & _ & Hskips); [reflexivity | vm_compute; reflexivity |].
  exists σ'. rewrite Hrun. rewrite Hskips; [reflexivity|].
  intros o Ho. repeat (apply elem_of_cons in Ho as [->|Ho]; [reflexivity|]).
  by apply elem_of_nil in Ho.
Defined.

(** C2, counterexample: one skipped entry and two skipped entries give the
    same returned value, a boolean, and the same summary line, which has
    two counts, both 0: no count of the summary moves on a skip, and the
    number of skipped entries is no function of what the caller gets. *)
Lemma paste_summary_has_no_skipped_count :
  fst (paste_outcomes (PosixPath.of_str "/dst") (Some SKIP)
         [PosixPath.of_str "/src/report.txt"] (loaded COPY ["/src/report.txt"] []))
  = Ok [Skipped] /\
  fst (paste_outcomes (PosixPath.of_str "/dst") (Some SKIP)
         [PosixPath.of_str "/src/report.txt"; PosixPath.of_str "/src/photos.2024"]
         (loaded COPY ["/src/report.txt"; "/src/photos.2024"] []))
  = Ok [Skipped; Skipped] /\
  fst (paste "/dst" (Some SKIP) (loaded COPY ["/src/report.txt"] [])) = Ok false /\
  fst (paste "/dst" (Some SKIP) (loaded COPY ["/src/report.txt"; "/src/photos.2024"] []))
  = Ok false /\
  last (stdout (snd (paste "/dst" (Some SKIP) (loaded COPY ["/src/report.txt"] []))))
  = Some (MsgSummary 0 0) /\
  last (stdout (snd (paste "/dst" (Some SKIP)
                       (loaded COPY ["/src/report.txt"; "/src/photos.2024"] []))))
  = Some (MsgSummary 0 0) /\
  ~ (exists skipped_count : res bool -> option message -> nat,
       skipped_count
         (fst (paste "/dst" (Some SKIP) (loaded COPY ["/src/report.txt"] [])))
         (last (stdout (snd (paste "/dst" (Some SKIP)
                               (loaded COPY ["/src/report.txt"] []))))) = 1 /\
       skipped_count
         (fst (paste "/dst" (Some SKIP)
                 (loaded COPY ["/src/report.txt"; "/src/photos.2024"] [])))
         (last (stdout (snd (paste "/dst" (Some SKIP)
                               (loaded COPY ["/src/report.txt"; "/src/photos.2024"] [])))))
       = 2).
Proof.
  do 6 (split; [reflexivity|]).
  intros (skipped_count & H1 & H2). vm_compute in H1, H2. congruence.
Qed.

(** On the concrete tree: the user answers [s] at the prompt for the first
    entry; the second has no conflict and is copied. *)
Lemma paste_skip_accounting_witness :
  exists b σ', paste "/dst" None (loaded COPY two [Line " s "]) = (Ok b, σ') /\
    last (stdout σ') = Some (MsgSummary 1 0) /\
    host σ'
    = MemFS.with_tree disk (MemFS.tree disk ++ [(["dst"; "notes"], MemFS.File "n")]).
Proof.
  edestruct (paste_skip_accounting "/dst" None (loaded COPY two [Line " s "]))
    as ((b & σ' & Hrun & Hsum) & _ & _); [reflexivity | vm_compute; reflexivity |].
  exists b, σ'. split; [exact Hrun|]. split; [exact Hsum|].
  apply (f_equal snd) in Hrun. simpl in Hrun. by rewrite <- Hrun.
Defined.

(** C8, counterexample: [copy] on the empty list succeeds and leaves an
    intent with no paths, from a state in which the invariant held. *)
Lemma copy_empty_list_breaks_invariant :
  clipboard_invariant (self (fresh [])) /\
  fst (copy [] (fresh [])) = Ok true /\
  self (snd (copy [] (fresh []))) = mkFileOperations [] (Some COPY) /\
  ~ clipboard_invariant (self (snd (copy [] (fresh [])))).
Proof.
  split; [by split|]. split; [reflexivity|]. split; [reflexivity|].
  intros [_ Hinv]. vm_compute in Hinv. by specialize (Hinv eq_refl).
Qed.

(** On the concrete tree, from a loaded clipboard. *)
Lemma clipboard_invariant_preserved_witness :
  clipboard_invariant (self (snd (stage CUT two (loaded COPY stale [])))) /\
  clipboard_invariant (self (snd (paste "/dst" (Some KEEP_BOTH) (loaded COPY stale [])))) /\
  clipboard_invariant (self (snd (clear_clipboard (loaded COPY stale [])))).
Proof.
  destruct (clipboard_invariant_preserved (loaded COPY stale []))
    as (_ & Hstage & Hpaste & Hclear & _).
  - split; intros E; vm_compute in E; discriminate.
  - split; [apply Hstage; discriminate|]. split; [apply Hpaste | exact Hclear].
Defined.

(** C5, counterexample: for the directory [photos.2024] the counter goes
    before the last dot-suffix, giving [photos (1).2024]; the counter after
    the full name would give [photos.2024 (1)]. *)
Lemma directory_name_is_split_at_its_suffix :
  path_is_dir disk (PosixPath.of_str "/dst/photos.2024") = true /\
  fst (_get_unique_name (PosixPath.of_str "/dst/photos.2024") (fresh []))
  = Ok (PosixPath.of_str "/dst/photos (1).2024") /\
  PosixPath.of_str "/dst/photos (1).2024" <> PosixPath.of_str "/dst/photos.2024 (1)".
Proof. split; [reflexivity|]. split; [reflexivity|]. vm_compute. discriminate. Qed.

(** The example of the specification: with [report.txt] and
    [report (1).txt] in the destination the name found is
    [report (2).txt]. *)
Example unique_name_report :
  path_exists disk (PosixPath.of_str "/dst/report.txt") = true /\
  path_exists disk (PosixPath.of_str "/dst/report (1).txt") = true /\
  _get_unique_name (PosixPath.of_str "/dst/report.txt") (fresh [])
  = (Ok (PosixPath.of_str "/dst/report (2).txt"), fresh []).
Proof. repeat split; reflexivity. Qed.

(** A directory without a dot in its name gets the counter after the
    whole name. *)
Example unique_name_plain_directory :
  path_is_dir disk (PosixPath.of_str "/dst") = true /\
  fst (_get_unique_name (PosixPath.of_str "/dst") (fresh []))
  = Ok (PosixPath.of_str "/dst (1)").
Proof. split; reflexivity. Qed.

(** C4, the code at the failing input: two files are cut, the first
    conflicts in [/dst], and the user presses Ctrl-C at the prompt.  The
    batch stops there, with the filesystem and the clipboard untouched and
    the second file never looked at; the exception that leaves [paste] is
    [SystemExit(0)], so the process ends with status 0, the status of a
    successful run, and not 130. *)
Theorem prompt_interrupt_exits_with_status_zero :
  paste "/dst" None (loaded CUT two [Interrupted KeyboardInterrupt])
  = (Raise (SystemExit 0),
     mkProcess (self (loaded CUT two [])) disk []
       [ MsgConflict (PosixPath.of_str "/src/report.txt") (PosixPath.of_str "/dst/report.txt");
         MsgCancelled ]) /\
  exit_status (fst (paste "/dst" None (loaded CUT two [Interrupted KeyboardInterrupt]))) = 0%Z /\
  exit_status (fst (main ["file_operations.py"; "copy"; "/src/notes"] (fresh []))) = 0%Z /\
  exit_status (Raise (A:=bool) KeyboardInterrupt) = 130%Z.
Proof. repeat split; reflexivity. Qed.

End Runs.

(** * pathlib on examples *)

Example of_str_abs :
  PosixPath.of_str "/home//u/./report.txt" = mkPath "/" ["home"; "u"; "report.txt"].
Proof. reflexivity. Qed.

Example stem_suffix_report :
  (PosixPath.stem (PosixPath.of_str "/d/report.txt"),
   PosixPath.suffix (PosixPath.of_str "/d/report.txt")) = ("report", ".txt").
Proof. reflexivity. Qed.

Example stem_suffix_hidden :
  (PosixPath.stem (PosixPath.of_str ".bashrc"),
   PosixPath.suffix (PosixPath.of_str ".bashrc")) = (".bashrc", "").
Proof. reflexivity. Qed.

Example stem_suffix_tar :
  (PosixPath.stem (PosixPath.of_str "a/b.tar.gz"),
   PosixPath.suffix (PosixPath.of_str "a/b.tar.gz")) = ("b.tar", ".gz").
Proof. reflexivity. Qed.

(** * Further properties of the engine *)

(** ** Refused pastes *)

Section Refusals.
Context {W : Type} `{HostFS W}.

(** The state after one line has been printed. *)
Definition printed (msg : message) (σ : Process W) : Process W :=
  mkProcess (self σ) (host σ) (stdin σ) (stdout σ ++ [msg]).

(** X1: a [paste] that fails one of its four checks returns [False],
    prints the line of the first check that fails, and touches neither the
    clipboard, nor the filesystem, nor standard input. *)
Theorem paste_refused destination d (σ : Process W) :
  paste_validates σ destination = false ->
  exists msg,
    paste destination d σ = (Ok false, printed msg σ) /\
    (clipboard (self σ) = [] -> msg = MsgClipboardEmptyError) /\
    (clipboard (self σ) <> [] -> operation_type (self σ) = None ->
       msg = MsgNoOperationType) /\
    (clipboard (self σ) <> [] -> operation_type (self σ) <> None ->
       path_exists (host σ) (PosixPath.of_str destination) = false ->
       msg = MsgDestMissing destination) /\
    (clipboard (self σ) <> [] -> operation_type (self σ) <> None ->
       path_exists (host σ) (PosixPath.of_str destination) = true ->
       msg = MsgDestNotDir destination).
Proof.
  intros Hv. unfold paste, try_except, bind at 1, get_self.
  destruct (decide (clipboard (self σ) = [])) as [Hc|Hc].
  { exists MsgClipboardEmptyError. split; [done|]. repeat split; congruence. }
  destruct (decide (operation_type (self σ) = None)) as [Ho|Ho].
  { exists MsgNoOperationType. split; [done|]. repeat split; congruence. }
  unfold bind at 1, query at 1.
  destruct (path_exists (host σ) (PosixPath.of_str destination)) eqn:He; simpl.
  2:{ exists (MsgDestMissing destination). split; [done|]. repeat split; congruence. }
  unfold bind at 1, query at 1.
  destruct (path_is_dir (host σ) (PosixPath.of_str destination)) eqn:Hd; simpl.
  2:{ exists (MsgDestNotDir destination). split; [done|]. repeat split; congruence. }
  exfalso. unfold paste_validates in Hv.
  rewrite He, Hd, !bool_decide_eq_false_2 in Hv by done. discriminate.
Qed.

End Refusals.

(** ** main *)

Section Main.
Context {W : Type} `{HostFS W}.

(** The object state at exit and the exit code of [main], by command. *)
Lemma main_too_few_arguments (argv : list string) (σ : Process W) :
  List.length argv < 2 ->
  main argv σ
  = (Raise (SystemExit 1),
     mkProcess __init__ (host σ) (stdin σ) (stdout σ ++ [MsgUsage])).
Proof.
  destruct argv as [|prog [|arg1 args]]; simpl; [done | done | lia].
Qed.

(** What [main] does once the command is known: the [sys.exit] of the
    branch passes both handlers. *)
Lemma main_dispatch prog arg1 args (body : M W unit) (σ : Process W) c σ' :
  main (prog :: arg1 :: args) σ
  = try_except body
      (fun e => match e with
                | KeyboardInterrupt => Some (print MsgCancelled ;; sys_exit 130)
                | _ => if is_Exception e
                       then Some (print (MsgTopLevelError e) ;; sys_exit 1)
                       else None
                end)
      (mkProcess __init__ (host σ) (stdin σ) (stdout σ)) ->
  body (mkProcess __init__ (host σ) (stdin σ) (stdout σ)) = (Raise (SystemExit c), σ') ->
  main (prog :: arg1 :: args) σ = (Raise (SystemExit c), σ').
Proof. intros -> Hb. unfold try_except. by rewrite Hb. Qed.

(** X2: the command [paste] of the command line always fails: [main]
    creates a new clipboard, so [paste] finds it empty, prints that, and
    the process exits with status 1 without touching the filesystem. *)
Theorem main_paste_always_fails prog command destination rest (σ : Process W) :
  PyStr.lower command = "paste" ->
  main (prog :: command :: destination :: rest) σ
  = (Raise (SystemExit 1),
     mkProcess __init__ (host σ) (stdin σ) (stdout σ ++ [MsgClipboardEmptyError])).
Proof.
  intros Hc. eapply main_dispatch.
  - unfold main, bind at 1, set_self. simpl. rewrite Hc. simpl. reflexivity.
  - unfold bind, paste, try_except, bind, get_self. simpl. reflexivity.
Qed.

(** X3: [copy] and [cut] on the command line exit with status 0 when
    every path exists, leaving the paths staged in an object that dies with
    the process, and with status 1 at the first path that does not. *)
Theorem main_stage_exit_status prog command path paths (σ : Process W) op :
  PyStr.lower command = OperationType_value op ->
  main (prog :: command :: path :: paths) σ
  = match first_missing (host σ) (path :: paths) with
    | None =>
        (Raise (SystemExit 0),
         staged op (path :: paths) (mkProcess __init__ (host σ) (stdin σ) (stdout σ)))
    | Some s =>
        (Raise (SystemExit 1),
         mkProcess __init__ (host σ) (stdin σ) (stdout σ ++ [MsgPathMissing s]))
    end.
Proof.
  intros Hc.
  assert (forall b σ1,
            stage op (path :: paths) (mkProcess __init__ (host σ) (stdin σ) (stdout σ))
            = (Ok b, σ1) ->
            main (prog :: command :: path :: paths) σ
            = (Raise (SystemExit (if b then 0 else 1)%Z), σ1)) as Hrun.
  { intros b σ1 Hs. eapply main_dispatch.
    - unfold main, bind at 1, set_self. simpl. rewrite Hc. reflexivity.
    - destruct op; simpl in *; unfold bind; rewrite Hs; reflexivity. }
  pose proof (stage_run op (path :: paths)
                (mkProcess __init__ (host σ) (stdin σ) (stdout σ))) as Hs.
  simpl host in Hs.
  destruct (first_missing (host σ) (path :: paths)); apply Hrun in Hs; exact Hs.
Qed.

(** X4: whatever its arguments, [main] ends in [sys.exit] with code 0
    or 1, reads nothing from standard input and leaves the filesystem as it
    found it: no command of the command line ever transfers a file. *)
Theorem main_never_touches_files (argv : list string) (σ : Process W) :
  exists code σ',
    main argv σ = (Raise (SystemExit code), σ') /\
    (code = 0 \/ code = 1)%Z /\
    host σ' = host σ /\ stdin σ' = stdin σ.
Proof.
  destruct argv as [|prog [|arg1 args]].
  1,2: eexists _, _; split; [apply main_too_few_arguments; simpl; lia | auto].
  unfold main, bind at 1, set_self, try_except. simpl.
  destruct (String.eqb (PyStr.lower arg1) "copy").
  { destruct args as [|p ps]; [eexists _, _; split; [reflexivity | auto]|].
    unfold bind at 1. rewrite copy_run. cbn [host].
    destruct (first_missing (host σ) (p :: ps)); eexists _, _; (split; [reflexivity | auto]). }
  destruct (String.eqb (PyStr.lower arg1) "cut").
  { destruct args as [|p ps]; [eexists _, _; split; [reflexivity | auto]|].
    unfold bind at 1. rewrite cut_run. cbn [host].
    destruct (first_missing (host σ) (p :: ps)); eexists _, _; (split; [reflexivity | auto]). }
  destruct (String.eqb (PyStr.lower arg1) "paste").
  { destruct args as [|p ps]; eexists _, _; (split; [reflexivity | auto]). }
  destruct (String.eqb (PyStr.lower arg1) "show").
  { eexists _, _; (split; [reflexivity | auto]). }
  destruct (String.eqb (PyStr.lower arg1) "clear").
  { eexists _, _; (split; [reflexivity | auto]). }
  eexists _, _; (split; [reflexivity | auto]).
Qed.

End Main.

(** ** The conflict prompt *)

(** The token the prompt accepts for an action. *)
Definition token (a : ConflictAction) : string :=
  match a with REPLACE => "R" | KEEP_BOTH => "K" | SKIP => "S" end.

(** A line of ASCII text that, stripped and upper-cased, is none of the
    three tokens.  (Outside ASCII [str.strip] and [str.upper] do more than
    [PyStr.strip] and [PyStr.upper]: such lines are left out.) *)
Definition invalid_answer (s : string) : Prop :=
  PyStr.isascii s = true /\ forall a, PyStr.upper (PyStr.strip s) <> token a.

Section PromptLoop.
Context {W : Type} `{HostFS W}.

Lemma prompt_loop_valid_line (s : string) (a : ConflictAction) rest (σ : Process W) :
  PyStr.upper (PyStr.strip s) = token a ->
  prompt_loop (Line s :: rest) σ
  = (Ok a, mkProcess (self σ) (host σ) rest (stdout σ)).
Proof. intros Hs. simpl. unfold bind, set_stdin. rewrite Hs. by destruct a. Qed.

Lemma prompt_loop_invalid_line (s : string) rest (σ : Process W) :
  invalid_answer s ->
  prompt_loop (Line s :: rest) σ
  = prompt_loop rest (mkProcess (self σ) (host σ) rest (stdout σ ++ [MsgInvalidChoice])).
Proof.
  intros [_ Hs]. simpl. unfold bind at 1, set_stdin.
  destruct (String.eqb_spec (PyStr.upper (PyStr.strip s)) "R") as [E|_];
    [by destruct (Hs REPLACE)|].
  destruct (String.eqb_spec (PyStr.upper (PyStr.strip s)) "K") as [E|_];
    [by destruct (Hs KEEP_BOTH)|].
  destruct (String.eqb_spec (PyStr.upper (PyStr.strip s)) "S") as [E|_];
    [by destruct (Hs SKIP)|].
  reflexivity.
Qed.

Lemma prompt_loop_skips_invalid (invalid : list string) tail (σ : Process W) :
  Forall invalid_answer invalid -> invalid <> [] ->
  prompt_loop (List.map Line invalid ++ tail) σ
  = prompt_loop tail
      (mkProcess (self σ) (host σ) tail
         (stdout σ ++ repeat MsgInvalidChoice (List.length invalid))).
Proof.
  intros Hall. revert σ. induction Hall as [|x l Hx Hl IH]; intros σ Hne; [done|].
  simpl List.map. simpl app. rewrite (prompt_loop_invalid_line x _ σ Hx).
  destruct l as [|y l'].
  - simpl. reflexivity.
  - rewrite IH by done. simpl. by rewrite <- app_assoc.
Qed.

(** C10: at whichever read of the prompt loop the exception is raised,
    the first one or one that follows any number of invalid answers (lines
    of ASCII text), when it is not an interrupt the resolver returns [SKIP]
    at once, reading no further input; in [paste] the entry is skipped, the
    counters stay, and the loop goes on with the remaining entries. *)
Theorem prompt_read_error_skips_entry
    dest_path source_path items counts (σ : Process W)
    (invalid : list string) pending e rest :
  stdin σ = List.map Line invalid ++ pending ->
  Forall invalid_answer invalid ->
  next_input pending = (Raise e, rest) -> is_Exception e = true ->
  path_exists (host σ) (dest_path // PosixPath.name source_path) = true ->
  let dest_item_path := dest_path // PosixPath.name source_path in
  let asked := mkProcess (self σ) (host σ) rest
                 (stdout σ ++ MsgConflict source_path dest_item_path
                           :: repeat MsgInvalidChoice (List.length invalid)
                           ++ [MsgInputError e]) in
  let skipped := mkProcess (self σ) (host σ) rest
                   (stdout asked ++ [MsgSkipped (PosixPath.name source_path)]) in
  _ask_conflict_resolution source_path dest_item_path σ = (Ok SKIP, asked) /\
  paste_entry dest_path None source_path σ = (Ok Skipped, skipped) /\
  paste_loop dest_path None (source_path :: items) counts σ
    = paste_loop dest_path None items counts skipped.
Proof.
  intros Hin Hall Hnext He Hc dest_item_path asked skipped.
  assert (_ask_conflict_resolution source_path dest_item_path σ = (Ok SKIP, asked)) as Hask.
  { unfold _ask_conflict_resolution, bind, print. cbn [stdin]. rewrite Hin.
    destruct invalid as [|x l].
    - cbn [List.map app List.length repeat].
      pose proof (prompt_loop_read_error
                    (mkProcess (self σ) (host σ) pending
                       (stdout σ ++ [MsgConflict source_path dest_item_path]))
                    e rest Hnext He) as Hp.
      cbn [self host stdin stdout] in Hp.
      rewrite Hp. unfold asked. by rewrite <- app_assoc.
    - rewrite prompt_loop_skips_invalid by done. cbn [self host stdin stdout].
      match goal with
      | |- prompt_loop pending ?r = _ =>
          pose proof (prompt_loop_read_error r e rest Hnext He) as Hp
      end.
      cbn [self host stdin stdout] in Hp. rewrite Hp. unfold asked.
      by rewrite <- !app_assoc. }
  assert (paste_entry dest_path None source_path σ = (Ok Skipped, skipped)) as Hentry.
  { by rewrite (paste_entry_skip dest_path None source_path σ asked Hc Hask). }
  repeat split; [done | done |].
  simpl. unfold bind at 1. by rewrite Hentry.
Qed.

(** X5: the prompt asks again after every ASCII answer that is not one
    of the three tokens, and returns the action of the first answer that is
    one, whatever its case and the ASCII white space around it; it reads
    exactly the lines up to that answer. *)
Theorem prompt_repeats_until_valid_answer
    source destination (invalid : list string) (s : string) (a : ConflictAction)
    rest (σ : Process W) :
  Forall invalid_answer invalid ->
  PyStr.upper (PyStr.strip s) = token a ->
  stdin σ = List.map Line invalid ++ Line s :: rest ->
  _ask_conflict_resolution source destination σ
  = (Ok a,
     mkProcess (self σ) (host σ) rest
       (stdout σ ++ MsgConflict source destination
                 :: repeat MsgInvalidChoice (List.length invalid))).
Proof.
  intros Hall Hs Hin. unfold _ask_conflict_resolution, bind, print.
  cbn [stdin]. rewrite Hin. destruct invalid as [|x l].
  - cbn [List.map app]. rewrite (prompt_loop_valid_line s a rest _ Hs). reflexivity.
  - rewrite prompt_loop_skips_invalid by done.
    rewrite (prompt_loop_valid_line s a rest _ Hs). cbn [self host stdout].
    by rewrite <- app_assoc.
Qed.

(** X6: when the input ends after ASCII lines none of which is a valid
    answer, the prompt gives up with [SKIP] after asking once per line
    read. *)
Theorem prompt_gives_up_at_end_of_input
    source destination (invalid : list string) (σ : Process W) :
  Forall invalid_answer invalid ->
  stdin σ = List.map Line invalid ->
  _ask_conflict_resolution source destination σ
  = (Ok SKIP,
     mkProcess (self σ) (host σ) []
       (stdout σ ++ MsgConflict source destination
                 :: repeat MsgInvalidChoice (List.length invalid)
                 ++ [MsgInputError OtherException])).
Proof.
  intros Hall Hin. unfold _ask_conflict_resolution, bind, print.
  cbn [stdin]. rewrite Hin. destruct invalid as [|x l].
  - simpl. unfold bind, print. simpl. by rewrite <- app_assoc.
  - rewrite <- (app_nil_r (List.map Line (x :: l))).
    rewrite prompt_loop_skips_invalid by done. simpl.
    unfold bind, print. simpl. by rewrite <- !app_assoc.
Qed.

End PromptLoop.

(** ** Staging stops at the first missing path *)

Section FirstMissing.
Context {W : Type} `{HostFS W}.

Lemma first_missing_app (w : W) (before : list string) (s : string) after :
  all_exist w before = true ->
  path_exists w (PosixPath.of_str s) = false ->
  first_missing w (before ++ s :: after) = Some s.
Proof.
  unfold all_exist, first_missing. intros Hb Hs.
  induction before as [|x l IH]; simpl in *.
  - by rewrite Hs.
  - apply andb_true_iff in Hb as [Hx Hl]. rewrite Hx. simpl. auto.
Qed.

(** X7: staging stops at the first path that does not exist: it names
    that path in its one line of output, returns [False], and the paths
    after it are never looked at, so whether they exist makes no
    difference. *)
Theorem stage_reports_first_missing_path
    (op : OperationType) (before : list string) (s : string) (after : list string)
    (σ : Process W) :
  all_exist (host σ) before = true ->
  path_exists (host σ) (PosixPath.of_str s) = false ->
  stage op (before ++ s :: after) σ
  = (Ok false,
     mkProcess (self σ) (host σ) (stdin σ) (stdout σ ++ [MsgPathMissing s])).
Proof.
  intros Hb Hs. rewrite stage_run, (first_missing_app _ _ _ after Hb Hs).
  reflexivity.
Qed.

End FirstMissing.

(** ** Batches with a default action *)

Section DefaultAction.
Context {W : Type} `{HostFS W}.

Lemma print_keeps_stdin msg : preserves (W:=W) stdin (print msg).
Proof. by intros σ. Qed.

Lemma host_call_keeps_stdin c : preserves (W:=W) stdin (host_call c).
Proof. intros σ. unfold host_call. by destruct (c (host σ)). Qed.

Lemma set_clipboard_keeps_stdin c : preserves (W:=W) stdin (set_clipboard c).
Proof. by intros σ. Qed.

Lemma set_operation_type_keeps_stdin t : preserves (W:=W) stdin (set_operation_type t).
Proof. by intros σ. Qed.

Lemma get_unique_name_keeps_stdin path : preserves (W:=W) stdin (_get_unique_name path).
Proof. intros σ. by rewrite get_unique_name_keeps_state. Qed.

End DefaultAction.

#[export] Hint Resolve print_keeps_stdin host_call_keeps_stdin set_clipboard_keeps_stdin
  set_operation_type_keeps_stdin get_unique_name_keeps_stdin : frame.

Section DefaultActionPaste.
Context {W : Type} `{HostFS W}.

Lemma paste_entry_keeps_stdin dest_path a source_path :
  preserves stdin (paste_entry dest_path (Some a) source_path).
Proof.
  unfold paste_entry, resolve_conflict, _copy_item, _move_item, wrap_error. frame.
Qed.

Lemma paste_loop_keeps_stdin dest_path a items counts :
  preserves stdin (paste_loop dest_path (Some a) items counts).
Proof.
  revert counts. induction items as [|p rest IH]; intros counts; simpl.
  - auto with frame.
  - apply preserves_bind; [apply paste_entry_keeps_stdin | intros o; apply IH].
Qed.

(** X8: with a default conflict action [paste] never reads standard
    input, whatever the clipboard, the destination and the outcome. *)
Theorem paste_with_default_reads_no_input destination a (σ : Process W) :
  stdin (snd (paste destination (Some a) σ)) = stdin σ.
Proof.
  revert σ. change (preserves stdin (paste destination (Some a))).
  unfold paste.
  apply preserves_try_except.
  - apply preserves_bind; [auto with frame|]. intros s.
    destruct (decide (clipboard s = [])); [frame|].
    destruct (decide (operation_type s = None)); [frame|].
    apply preserves_bind; [auto with frame|]. intros found.
    destruct (negb found); [frame|].
    apply preserves_bind; [auto with frame|]. intros isd.
    destruct (negb isd); [frame|].
    apply preserves_bind; [apply paste_loop_keeps_stdin|]. intros counts.
    frame.
  - intros e k Hk. case_match; simplify_eq. frame.
Qed.

End DefaultActionPaste.

Section SkipAll.
Context {W : Type} `{HostFS W}.

Lemma paste_outcomes_all_skipped dest_path items (σ : Process W) :
  (forall p, p ∈ items -> path_exists (host σ) (dest_path // PosixPath.name p) = true) ->
  paste_outcomes dest_path (Some SKIP) items σ
  = (Ok (List.map (fun _ => Skipped) items),
     mkProcess (self σ) (host σ) (stdin σ)
       (stdout σ ++ List.map (fun p => MsgSkipped (PosixPath.name p)) items)).
Proof.
  revert σ. induction items as [|p rest IH]; intros σ Hall; simpl.
  - unfold ret. destruct σ; simpl. by rewrite app_nil_r.
  - unfold bind at 1.
    rewrite (paste_entry_skip dest_path (Some SKIP) p σ σ);
      [|apply Hall, list_elem_of_here | reflexivity].
    unfold bind at 1. rewrite IH.
    + simpl. unfold ret. by rewrite <- app_assoc.
    + intros q Hq. simpl. apply Hall. by apply list_elem_of_further.
Qed.

Lemma count_all_skipped {A} (items : list A) (p : Outcome -> bool) :
  p Skipped = false -> count p (List.map (fun _ => Skipped) items) = 0.
Proof. intros Hp. unfold count. induction items; simpl; [done|]. by rewrite Hp. Qed.

(** X9: when every entry conflicts and the default action is [SKIP],
    [paste] changes no file and returns [False]; under CUT it nevertheless
    empties the clipboard, since no entry failed, while under COPY the
    clipboard stays. *)
Theorem paste_all_skipped destination (σ : Process W) :
  paste_validates σ destination = true ->
  (forall p, p ∈ clipboard (self σ) ->
     path_exists (host σ) (PosixPath.of_str destination // PosixPath.name p) = true) ->
  exists σ', paste destination (Some SKIP) σ = (Ok false, σ') /\
    host σ' = host σ /\
    (operation_type (self σ) = Some CUT -> self σ' = mkFileOperations [] None) /\
    (operation_type (self σ) = Some COPY -> self σ' = self σ) /\
    stdout σ' = stdout σ
                ++ List.map (fun p => MsgSkipped (PosixPath.name p)) (clipboard (self σ))
                ++ [MsgSummary 0 0].
Proof.
  intros Hv Hall. rewrite (paste_run _ _ _ Hv), (paste_outcomes_all_skipped _ _ _ Hall).
  rewrite !count_all_skipped by done. simpl.
  eexists. split; [reflexivity|]. simpl. unfold clipboard_after.
  repeat split.
  - intros ->. by rewrite bool_decide_eq_true_2.
  - intros ->. by rewrite bool_decide_eq_false_2.
  - by rewrite <- app_assoc.
Qed.

End SkipAll.

Section Isolation.
Context {W : Type} `{HostFS W}.

(** X10: with a default action, on a host whose calls raise only
    [Exception]s, no entry can stop the batch: [paste] returns, every
    entry has an outcome, and the two counts of the summary with the
    skipped entries add up to the size of the clipboard. *)
Theorem paste_handles_every_entry destination a (σ : Process W) :
  host_raises_exceptions_only (W:=W) ->
  paste_validates σ destination = true ->
  exists os σ1 σ',
    paste_outcomes (PosixPath.of_str destination) (Some a) (clipboard (self σ)) σ
      = (Ok os, σ1) /\
    List.length os = List.length (clipboard (self σ)) /\
    paste destination (Some a) σ = (Ok (Nat.ltb 0 (count is_succeeded os)), σ') /\
    last (stdout σ') = Some (MsgSummary (count is_succeeded os) (count is_failed os)) /\
    count is_succeeded os + count is_failed os <= List.length (clipboard (self σ)).
Proof.
  intros Hhost Hv.
  destruct (paste_outcomes_returns (PosixPath.of_str destination) a
              (clipboard (self σ)) σ Hhost) as (os & σ1 & Hos).
  pose proof (paste_outcomes_length _ _ _ _ _ _ Hos) as Hlen.
  exists os, σ1. eexists. split; [exact Hos|]. split; [exact Hlen|].
  rewrite (paste_run _ _ _ Hv), Hos. split; [reflexivity|].
  split; [apply last_snoc|].
  pose proof (count_partition os). lia.
Qed.



End Isolation.

(** ** How failures are classified *)

Section Classification.
Context {W : Type} `{HostFS W}.

Lemma wrap_error_some what e (k : M W unit) :
  wrap_error what e = Some k ->
  is_Exception e = true /\ exists why, k = raise (FileOperationError why).
Proof.
  unfold wrap_error. destruct e; simpl; intros [= <-]; split; eauto.
Qed.

Lemma wrap_error_none what e :
  wrap_error (W:=W) what e = None -> is_Exception e = false.
Proof. unfold wrap_error. by destruct e. Qed.

Lemma wrapped_raise (m : M W unit) what (σ σ' : Process W) e :
  try_except m (wrap_error what) σ = (Raise e, σ') ->
  is_Exception e = true -> exists why, e = FileOperationError why.
Proof.
  unfold try_except. destruct (m σ) as [[u|e1] σ1]; [discriminate|].
  destruct (wrap_error what e1) as [k|] eqn:Ew.
  - apply wrap_error_some in Ew as (_ & why & ->). intros [= <- _] _. eauto.
  - apply wrap_error_none in Ew. intros [= <- _]. congruence.
Qed.

(** X12: when the copy or the move of [shutil] raises an [Exception],
    whichever it is, [_copy_item] and [_move_item] raise a
    [FileOperationError] in its place, in the state the failed call left:
    no [PermissionError] or [OSError] of a transfer reaches the caller, and
    none is swallowed. *)
Theorem transfer_raises_file_operation_error
    source destination (σ : Process W) w' e :
  is_Exception e = true ->
  ((if path_is_dir (host σ) source
    then copytree (host σ) source destination
    else copy2 (host σ) source destination) = (w', Some e) ->
   exists why,
     _copy_item source destination σ
     = (Raise (FileOperationError why), mkProcess (self σ) w' (stdin σ) (stdout σ))) /\
  (move (host σ) source destination = (w', Some e) ->
   exists why,
     _move_item source destination σ
     = (Raise (FileOperationError why), mkProcess (self σ) w' (stdin σ) (stdout σ))).
Proof.
  intros He. split; intros Hcall.
  - unfold _copy_item, try_except, bind, query, host_call.
    destruct (path_is_dir (host σ) source); rewrite Hcall;
      destruct e; try discriminate; eexists; reflexivity.
  - unfold _move_item, try_except, host_call. rewrite Hcall.
    destruct e; try discriminate; eexists; reflexivity.
Qed.

End Classification.

(** ** One entry, step by step *)

Section EntrySteps.
Context {W : Type} `{HostFS W}.

(** The second half of the [try] block of [paste_entry]: the transfer to
    the resolved path [dest_item_path] under the intent of the clipboard,
    and the line it prints. *)
Definition place (source_path dest_item_path : Path) : M W Outcome :=
  s <- get_self ;;
  (if decide (operation_type s = Some COPY)
   then _copy_item source_path dest_item_path ;;
        print (MsgCopied (PosixPath.name source_path) dest_item_path)
   else _move_item source_path dest_item_path ;;
        print (MsgMoved (PosixPath.name source_path) dest_item_path)) ;;
  ret (Succeeded dest_item_path).

(** The two [except] clauses of [paste_entry], applied to an exception
    raised in state [σ]. *)
Definition entry_handler (source_path : Path) (e : exn) (σ : Process W)
  : res Outcome * Process W :=
  if is_OSError e
  then (Ok (Failed e), printed (MsgFailed (PosixPath.name source_path) e) σ)
  else if is_Exception e
  then (Ok (Failed e), printed (MsgUnexpected (PosixPath.name source_path) e) σ)
  else (Raise e, σ).

Lemma handled (m : M W Outcome) source_path (σ : Process W) :
  try_except m
    (fun e =>
       if is_OSError e
       then Some (print (MsgFailed (PosixPath.name source_path) e) ;; ret (Failed e))
       else if is_Exception e
       then Some (print (MsgUnexpected (PosixPath.name source_path) e) ;; ret (Failed e))
       else None) σ
  = match m σ with
    | (Ok o, σ1) => (Ok o, σ1)
    | (Raise e, σ1) => entry_handler source_path e σ1
    end.
Proof.
  unfold try_except, entry_handler. destruct (m σ) as [[o|e] σ1]; [done|].
  destruct (is_OSError e); [done|]. by destruct (is_Exception e).
Qed.

(** An entry without conflict goes straight to the transfer. *)
Lemma paste_entry_no_conflict dest_path d source_path (σ : Process W) :
  path_exists (host σ) (dest_path // PosixPath.name source_path) = false ->
  paste_entry dest_path d source_path σ
  = match place source_path (dest_path // PosixPath.name source_path) σ with
    | (Ok o, σ1) => (Ok o, σ1)
    | (Raise e, σ1) => entry_handler source_path e σ1
    end.
Proof.
  intros Hc. unfold paste_entry. rewrite handled.
  unfold bind at 1, query at 1. rewrite Hc. reflexivity.
Qed.

(** A conflicting entry first resolves the conflict. *)
Lemma paste_entry_conflict dest_path d source_path (σ : Process W) :
  path_exists (host σ) (dest_path // PosixPath.name source_path) = true ->
  paste_entry dest_path d source_path σ
  = match resolve_conflict d source_path (dest_path // PosixPath.name source_path) σ with
    | (Raise e, σ1) => entry_handler source_path e σ1
    | (Ok SKIP, σ1) =>
        (Ok Skipped, printed (MsgSkipped (PosixPath.name source_path)) σ1)
    | (Ok REPLACE, σ1) =>
        let target := dest_path // PosixPath.name source_path in
        let (w', r) := (if path_is_dir (host σ1) target then rmtree else unlink)
                         (host σ1) target in
        let σ2 := mkProcess (self σ1) w' (stdin σ1) (stdout σ1) in
        match r with
        | Some e => entry_handler source_path e σ2
        | None =>
            match place source_path target σ2 with
            | (Ok o, σ3) => (Ok o, σ3)
            | (Raise e, σ3) => entry_handler source_path e σ3
            end
        end
    | (Ok KEEP_BOTH, σ1) =>
        match _get_unique_name (dest_path // PosixPath.name source_path) σ1 with
        | (Ok unique, σ2) =>
            match place source_path unique σ2 with
            | (Ok o, σ3) => (Ok o, σ3)
            | (Raise e, σ3) => entry_handler source_path e σ3
            end
        | (Raise e, σ2) => entry_handler source_path e σ2
        end
    end.
Proof.
  intros Hc. unfold paste_entry. rewrite handled.
  unfold bind at 1, query at 1. rewrite Hc.
  unfold bind at 1. unfold bind at 1.
  destruct (resolve_conflict d source_path _ σ) as [[[| |]|e] σ1]; [| | |done].
  - unfold bind at 1. unfold bind at 1, query at 1.
    unfold bind at 1.
    destruct (path_is_dir (host σ1) (dest_path // PosixPath.name source_path));
      unfold host_call; simpl.
    + destruct (rmtree (host σ1) _) as [w' [e|]]; [done|]. reflexivity.
    + destruct (unlink (host σ1) _) as [w' [e|]]; [done|]. reflexivity.
  - unfold bind at 1.
    destruct (_get_unique_name _ σ1) as [[unique|e] σ2]; [|done]. reflexivity.
  - reflexivity.
Qed.

End EntrySteps.

Section EntryProperties.
Context {W : Type} `{HostFS W}.

Lemma place_run source_path target (σ : Process W) :
  place source_path target σ
  = match (if decide (operation_type (self σ) = Some COPY)
           then _copy_item source_path target σ
           else _move_item source_path target σ) with
    | (Ok _, σ1) =>
        (Ok (Succeeded target),
         printed (if decide (operation_type (self σ) = Some COPY)
                  then MsgCopied (PosixPath.name source_path) target
                  else MsgMoved (PosixPath.name source_path) target) σ1)
    | (Raise e, σ1) => (Raise e, σ1)
    end.
Proof.
  unfold place, bind at 1, get_self.
  destruct (decide (operation_type (self σ) = Some COPY)) as [Hop|Hop].
  - unfold bind. by destruct (_copy_item source_path target σ) as [[u|e] σ1].
  - unfold bind. by destruct (_move_item source_path target σ) as [[u|e] σ1].
Qed.

Lemma place_raises source_path target (σ σ1 : Process W) e :
  place source_path target σ = (Raise e, σ1) ->
  is_Exception e = true -> exists why, e = FileOperationError why.
Proof.
  rewrite place_run.
  destruct (decide (operation_type (self σ) = Some COPY)) as [Hop|Hop].
  - destruct (_copy_item source_path target σ) as [[u|e1] σ2] eqn:E; [discriminate|].
    intros [= <- _]. eapply wrapped_raise. exact E.
  - destruct (_move_item source_path target σ) as [[u|e1] σ2] eqn:E; [discriminate|].
    intros [= <- _]. eapply wrapped_raise. exact E.
Qed.

Lemma place_returns source_path target (σ σ1 : Process W) o :
  place source_path target σ = (Ok o, σ1) -> o = Succeeded target.
Proof.
  rewrite place_run. repeat case_match; by intros [= <- _].
Qed.

Lemma entry_handler_failed source_path e (σ σ' : Process W) e' :
  entry_handler source_path e σ = (Ok (Failed e'), σ') ->
  e' = e /\ is_Exception e = true /\
  σ' = printed (if is_OSError e then MsgFailed (PosixPath.name source_path) e
                else MsgUnexpected (PosixPath.name source_path) e) σ.
Proof.
  unfold entry_handler. destruct (is_OSError e) eqn:Eo.
  - intros [= <- <-]. by destruct e.
  - destruct (is_Exception e); [|discriminate]. by intros [= <- <-].
Qed.

(** X13: when an entry without conflict fails, the exception recorded is
    a [FileOperationError] and the line printed is the one of the
    [except Exception] clause: the [except (PermissionError, OSError)]
    clause of [paste] never sees a failed copy or move. *)
Theorem transfer_failure_is_reported_as_unexpected
    dest_path d source_path (σ σ' : Process W) e :
  path_exists (host σ) (dest_path // PosixPath.name source_path) = false ->
  paste_entry dest_path d source_path σ = (Ok (Failed e), σ') ->
  (exists why, e = FileOperationError why) /\
  last (stdout σ') = Some (MsgUnexpected (PosixPath.name source_path) e).
Proof.
  intros Hc. rewrite (paste_entry_no_conflict _ _ _ _ Hc).
  destruct (place source_path _ σ) as [[o|e1] σ1] eqn:E.
  - intros [= -> _]. by apply place_returns in E.
  - intros Hh. apply entry_handler_failed in Hh as (-> & He & ->).
    destruct (place_raises _ _ _ _ _ E He) as [why ->].
    split; [eauto|]. simpl. apply last_snoc.
Qed.

(** X14: under REPLACE, when removing the existing target raises an
    [Exception], the entry is recorded as failed with that exception and
    the source is not transferred: the filesystem is what the failed
    removal left. *)
Theorem replace_stops_when_removal_fails
    dest_path source_path (σ : Process W) w' e :
  path_exists (host σ) (dest_path // PosixPath.name source_path) = true ->
  (if path_is_dir (host σ) (dest_path // PosixPath.name source_path)
   then rmtree else unlink) (host σ) (dest_path // PosixPath.name source_path)
  = (w', Some e) ->
  is_Exception e = true ->
  paste_entry dest_path (Some REPLACE) source_path σ
  = (Ok (Failed e),
     mkProcess (self σ) w' (stdin σ)
       (stdout σ ++ [if is_OSError e
                     then MsgFailed (PosixPath.name source_path) e
                     else MsgUnexpected (PosixPath.name source_path) e])).
Proof.
  intros Hc Hrm He. rewrite (paste_entry_conflict _ _ _ _ Hc). simpl.
  rewrite Hrm. unfold entry_handler. rewrite He.
  by destruct (is_OSError e).
Qed.

Lemma get_unique_name_free path (σ σ' : Process W) p :
  _get_unique_name path σ = (Ok p, σ') ->
  σ' = σ /\ path_exists (host σ) p = false.
Proof.
  unfold _get_unique_name.
  pose proof (unique_name_loop_run (host σ) path
                (S (List.length (entries (host σ) (PosixPath.parent path)))) 1) as Hrun.
  destruct (unique_name_loop _ (host σ) _ _ _ 1) as [q|]; [|discriminate].
  destruct Hrun as (k & _ & -> & Hfree & _). by intros [= <- <-].
Qed.

(** X15: an entry is placed on a path that already existed only when its
    conflict was resolved as REPLACE; without conflict and under KEEP_BOTH
    the path it goes to did not exist when [paste] looked. *)
Theorem only_replace_overwrites
    dest_path d source_path (σ σ' : Process W) final :
  paste_entry dest_path d source_path σ = (Ok (Succeeded final), σ') ->
  path_exists (host σ) final = true ->
  final = dest_path // PosixPath.name source_path /\
  exists σ1, resolve_conflict d source_path final σ = (Ok REPLACE, σ1).
Proof.
  intros Hrun Hex.
  destruct (path_exists (host σ) (dest_path // PosixPath.name source_path)) eqn:Hc.
  - rewrite (paste_entry_conflict _ _ _ _ Hc) in Hrun.
    pose proof (resolve_conflict_keeps_host d source_path
                  (dest_path // PosixPath.name source_path) σ) as Hhost.
    destruct (resolve_conflict d source_path _ σ) as [[[| |]|e] σ1] eqn:Er;
      simpl in Hhost.
    + simpl in Hrun.
      destruct ((if path_is_dir (host σ1) _ then rmtree else unlink) (host σ1) _)
        as [w' [e|]].
      { unfold entry_handler in Hrun. repeat case_match; discriminate. }
      destruct (place source_path _ _) as [[o|e] σ3] eqn:E.
      * injection Hrun as -> _. apply place_returns in E. injection E as ->.
        split; [done|]. by exists σ1.
      * unfold entry_handler in Hrun. repeat case_match; discriminate.
    + destruct (_get_unique_name _ σ1) as [[unique|e] σ2] eqn:Eu.
      * apply get_unique_name_free in Eu as [-> Hfree].
        destruct (place source_path unique σ1) as [[o|e] σ3] eqn:E.
        -- injection Hrun as -> _. apply place_returns in E. injection E as ->.
           rewrite Hhost in Hfree. congruence.
        -- unfold entry_handler in Hrun. repeat case_match; discriminate.
      * unfold entry_handler in Hrun. repeat case_match; discriminate.
    + discriminate.
    + unfold entry_handler in Hrun. repeat case_match; discriminate.
  - rewrite (paste_entry_no_conflict _ _ _ _ Hc) in Hrun.
    destruct (place source_path _ σ) as [[o|e] σ3] eqn:E.
    + injection Hrun as -> _. apply place_returns in E. injection E as ->. congruence.
    + unfold entry_handler in Hrun. repeat case_match; discriminate.
Qed.

End EntryProperties.

(** ** The name found by [_get_unique_name] *)

Section StringSplit.

Lemma append_assoc (a b c : string) : ((a ++ b) ++ c = a ++ (b ++ c))%string.
Proof. induction a as [|x a IH]; [done|]. by rewrite !append_cons, IH. Qed.

Lemma rfind_split (c : ascii) (n : string) (i : nat) :
  PyStr.rfind c n = Some i ->
  exists a r, n = (a ++ String c r)%string /\ String.length a = i /\ PyStr.rfind c r = None.
Proof.
  revert i. induction n as [|x n IH]; intros i; simpl; [discriminate|].
  destruct (PyStr.rfind c n) as [j|] eqn:E.
  - intros [= <-]. destruct (IH j eq_refl) as (a & r & -> & <- & Hr).
    exists (String x a), r. by rewrite append_cons.
  - destruct (Ascii.eqb_spec x c) as [->|]; [|discriminate].
    intros [= <-]. by exists "", n.
Qed.

Lemma rfind_app_cons (c : ascii) (a r : string) :
  PyStr.rfind c r = None ->
  PyStr.rfind c (a ++ String c r) = Some (String.length a).
Proof.
  intros Hr. induction a as [|x a IH].
  - change ("" ++ String c r)%string with (String c r). simpl.
    by rewrite Hr, Ascii.eqb_refl.
  - rewrite append_cons. simpl. by rewrite IH.
Qed.

Lemma substring_0_0 (s : string) : substring 0 0 s = "".
Proof. by destruct s. Qed.

Lemma substring_all (s : string) : substring 0 (String.length s) s = s.
Proof. induction s as [|c s IH]; simpl; [done|]. by rewrite IH. Qed.

Lemma take_app (a b : string) : PyStr.take (String.length a) (a ++ b) = a.
Proof.
  unfold PyStr.take. induction a as [|c a IH].
  - apply substring_0_0.
  - rewrite append_cons. simpl. by rewrite IH.
Qed.

Lemma drop_app (a b : string) : PyStr.drop (String.length a) (a ++ b) = b.
Proof.
  unfold PyStr.drop. induction a as [|c a IH].
  - change ("" ++ b)%string with b. simpl. rewrite Nat.sub_0_r. apply substring_all.
  - rewrite append_cons. simpl. exact IH.
Qed.

End StringSplit.

Section UniqueNameShape.
Context {W : Type} `{HostFS W}.

(** A name with a suffix: the stem, a dot, and a dot-free, non-empty rest. *)
Lemma split_point_some (n : string) (i : nat) :
  PosixPath.split_point n = Some i ->
  exists a r, n = (a ++ String "." r)%string /\ String.length a = i /\
              a <> "" /\ r <> "" /\ PyStr.rfind "." r = None.
Proof.
  unfold PosixPath.split_point.
  destruct (PyStr.rfind "." n) as [j|] eqn:E; [|discriminate].
  destruct (Nat.ltb 0 j && Nat.ltb j (String.length n - 1))%bool eqn:Eb; [|discriminate].
  intros [= <-]. apply andb_true_iff in Eb as [H0 H1].
  apply Nat.ltb_lt in H0, H1.
  destruct (rfind_split _ _ _ E) as (a & r & -> & Hlen & Hr).
  exists a, r. repeat split; try done.
  - intros ->. simpl in Hlen. lia.
  - intros ->. rewrite length_append in H1. simpl in H1. lia.
Qed.

Lemma split_point_app (a r : string) :
  a <> "" -> r <> "" -> PyStr.rfind "." r = None ->
  PosixPath.split_point (a ++ String "." r) = Some (String.length a).
Proof.
  intros Ha Hr Hfind. unfold PosixPath.split_point.
  rewrite (rfind_app_cons _ _ _ Hfind), length_append. simpl.
  destruct a as [|x a]; [done|]. destruct r as [|y r]; [done|]. simpl.
  replace (Nat.ltb _ _) with true; [done|].
  symmetry. apply Nat.ltb_lt. lia.
Qed.

Lemma name_joinname (p : Path) (n : string) : n <> "" -> PosixPath.name (p // n) = n.
Proof.
  intros Hn. unfold PosixPath.joinname, PosixPath.name.
  destruct (String.eqb_spec n ""); [done|]. simpl. apply last_last.
Qed.

Lemma parent_joinname (p : Path) (n : string) :
  n <> "" -> PosixPath.parent (p // n) = p.
Proof.
  intros Hn. unfold PosixPath.joinname, PosixPath.parent.
  destruct (String.eqb_spec n ""); [done|]. simpl.
  rewrite removelast_last. by destruct p.
Qed.

(** X16: the path [_get_unique_name] returns lies in the directory of the
    path it was given; when that path has a suffix, the new path keeps the
    suffix and its stem is the old stem followed by the counter in
    parentheses. *)
Theorem unique_name_keeps_parent_and_suffix (path : Path) (σ σ' : Process W) p :
  _get_unique_name path σ = (Ok p, σ') ->
  PosixPath.parent p = PosixPath.parent path /\
  (PosixPath.suffix path <> "" ->
     PosixPath.suffix p = PosixPath.suffix path /\
     exists k, 1 <= k /\
       PosixPath.stem p = (PosixPath.stem path ++ " (" ++ pretty k ++ ")")%string).
Proof.
  unfold _get_unique_name.
  pose proof (unique_name_loop_run (host σ) path
                (S (List.length (entries (host σ) (PosixPath.parent path)))) 1) as Hrun.
  destruct (unique_name_loop _ (host σ) _ _ _ 1) as [q|]; [|discriminate].
  destruct Hrun as (k & Hk & -> & _ & _). intros [= <- _].
  unfold candidate. split.
  { apply parent_joinname, numbered_name_nonempty. }
  intros Hsuf.
  unfold PosixPath.suffix, PosixPath.stem in *.
  rewrite (name_joinname _ _ (numbered_name_nonempty _ _ k)).
  destruct (PosixPath.split_point (PosixPath.name path)) as [i|] eqn:Esp; [|done].
  destruct (split_point_some _ _ Esp) as (a & r & Hname & <- & Ha & Hr & Hfind).
  rewrite Hname, take_app, drop_app.
  unfold numbered_name.
  assert ((a ++ " (" ++ pretty k ++ ")" ++ String "." r)%string
          = ((a ++ " (" ++ pretty k ++ ")") ++ String "." r)%string) as ->.
  { by rewrite !append_assoc. }
  rewrite split_point_app; [|by apply append_nonempty_r|done|done].
  rewrite take_app, drop_app. split; [done|]. exists k. split; [lia|done].
Qed.

End UniqueNameShape.

(** * The further properties on concrete trees *)

Module MoreRuns.
Import Scenario.

(** The tree of [Scenario] with a read-only directory that already holds a
    [report.txt]. *)
Definition guarded : MemFS.t :=
  MemFS.mk ["home"; "u"]
    (MemFS.tree disk ++ [(["locked"; "report.txt"], MemFS.File "kept")])
    [ ["locked"] ].

Definition on_guarded (op : OperationType) (items : list string) (input : list input_event)
  : Process MemFS.t :=
  mkProcess (mkFileOperations (List.map PosixPath.of_str items) (Some op)) guarded input [].

(** A destination that is a file, not a directory. *)
Lemma paste_refused_witness :
  exists msg,
    paste "/src/notes" None (loaded COPY two [])
    = (Ok false, printed msg (loaded COPY two [])) /\
    msg = MsgDestNotDir "/src/notes".
Proof.
  destruct (paste_refused "/src/notes" None (loaded COPY two []))
    as (msg & Hrun & _ & _ & _ & Hdir); [reflexivity|].
  exists msg. split; [exact Hrun|].
  apply Hdir; [discriminate | discriminate | reflexivity].
Defined.

(** The command is matched whatever its case. *)
Lemma main_paste_always_fails_witness :
  main ["file_operations.py"; "Paste"; "/dst"] (loaded CUT two [])
  = (Raise (SystemExit 1),
     mkProcess __init__ disk [] [MsgClipboardEmptyError]).
Proof.
  apply (main_paste_always_fails "file_operations.py" "Paste" "/dst" []
           (loaded CUT two [])).
  reflexivity.
Defined.

Lemma main_stage_exit_status_witness :
  fst (main ["file_operations.py"; "cut"; "/src/report.txt"; "/src/ghost"] (fresh []))
  = Raise (SystemExit 1) /\
  fst (main ["file_operations.py"; "cut"; "/src/report.txt"; "/src/notes"] (fresh []))
  = Raise (SystemExit 0).
Proof.
  split.
  - rewrite (main_stage_exit_status "file_operations.py" "cut" "/src/report.txt"
               ["/src/ghost"] (fresh []) CUT); reflexivity.
  - rewrite (main_stage_exit_status "file_operations.py" "cut" "/src/report.txt"
               ["/src/notes"] (fresh []) CUT); reflexivity.
Defined.

Lemma invalid_answers : Forall invalid_answer ["yes"; ""; "rk"].
Proof. repeat constructor; intros [| |]; vm_compute; discriminate. Qed.

(** Three invalid answers, then a read that raises [OSError]: the entry
    is skipped without reading the line that follows, and the second entry
    is then copied. *)
Lemma prompt_read_error_skips_entry_witness :
  paste_entry (PosixPath.of_str "/dst") None (PosixPath.of_str "/src/report.txt")
    (loaded COPY two [Line "yes"; Line ""; Line "rk"; Interrupted OSError; Line "r"])
  = (Ok Skipped,
     mkProcess (self (loaded COPY two [])) disk [Line "r"]
       [ MsgConflict (PosixPath.of_str "/src/report.txt") (PosixPath.of_str "/dst/report.txt");
         MsgInvalidChoice; MsgInvalidChoice; MsgInvalidChoice;
         MsgInputError OSError; MsgSkipped "report.txt" ]) /\
  fst (paste_loop (PosixPath.of_str "/dst") None
         (List.map PosixPath.of_str two) (0, 0)
         (loaded COPY two [Line "yes"; Line ""; Line "rk"; Interrupted OSError; Line "r"]))
  = Ok (1, 0).
Proof.
  destruct (prompt_read_error_skips_entry
              (PosixPath.of_str "/dst") (PosixPath.of_str "/src/report.txt")
              [PosixPath.of_str "/src/notes"] (0, 0)
              (loaded COPY two [Line "yes"; Line ""; Line "rk"; Interrupted OSError; Line "r"])
              ["yes"; ""; "rk"] [Interrupted OSError; Line "r"] OSError [Line "r"])
    as (_ & Hentry & Hloop);
    [reflexivity | exact invalid_answers | reflexivity | reflexivity | reflexivity |].
  split; [exact Hentry|].
  change (List.map PosixPath.of_str two)
    with [PosixPath.of_str "/src/report.txt"; PosixPath.of_str "/src/notes"].
  rewrite Hloop. reflexivity.
Defined.

Lemma prompt_repeats_until_valid_answer_witness :
  _ask_conflict_resolution (PosixPath.of_str "/src/notes") (PosixPath.of_str "/dst/notes")
    (fresh [Line "yes"; Line ""; Line "rk"; Line "  k "; Line "r"])
  = (Ok KEEP_BOTH,
     mkProcess __init__ disk [Line "r"]
       [ MsgConflict (PosixPath.of_str "/src/notes") (PosixPath.of_str "/dst/notes");
         MsgInvalidChoice; MsgInvalidChoice; MsgInvalidChoice ]).
Proof.
  apply (prompt_repeats_until_valid_answer _ _ ["yes"; ""; "rk"] "  k " KEEP_BOTH
           [Line "r"] (fresh [Line "yes"; Line ""; Line "rk"; Line "  k "; Line "r"]));
    [exact invalid_answers | reflexivity | reflexivity].
Defined.

Lemma prompt_gives_up_at_end_of_input_witness :
  _ask_conflict_resolution (PosixPath.of_str "/src/notes") (PosixPath.of_str "/dst/notes")
    (fresh [Line "yes"; Line ""; Line "rk"])
  = (Ok SKIP,
     mkProcess __init__ disk []
       [ MsgConflict (PosixPath.of_str "/src/notes") (PosixPath.of_str "/dst/notes");
         MsgInvalidChoice; MsgInvalidChoice; MsgInvalidChoice;
         MsgInputError OtherException ]).
Proof.
  apply (prompt_gives_up_at_end_of_input _ _ ["yes"; ""; "rk"]
           (fresh [Line "yes"; Line ""; Line "rk"]));
    [exact invalid_answers | reflexivity].
Defined.

(** Two missing paths: only the first is reported. *)
Lemma stage_reports_first_missing_path_witness :
  stage COPY ["/src/notes"; "/src/ghost"; "/src/phantom"] (fresh [])
  = (Ok false, mkProcess __init__ disk [] [MsgPathMissing "/src/ghost"]).
Proof.
  apply (stage_reports_first_missing_path COPY ["/src/notes"] "/src/ghost"
           ["/src/phantom"] (fresh [])); reflexivity.
Defined.

Lemma paste_all_skipped_witness :
  exists σ', paste "/dst" (Some SKIP)
               (loaded CUT ["/src/report.txt"; "/src/photos.2024"] [])
             = (Ok false, σ') /\
    host σ' = disk /\ self σ' = mkFileOperations [] None.
Proof.
  destruct (paste_all_skipped "/dst"
              (loaded CUT ["/src/report.txt"; "/src/photos.2024"] []))
    as (σ' & Hrun & Hhost & Hcut & _ & _); [reflexivity | |].
  - intros p Hp. repeat (apply elem_of_cons in Hp as [->|Hp]; [reflexivity|]).
    by apply elem_of_nil in Hp.
  - exists σ'. split; [exact Hrun|]. split; [exact Hhost | by apply Hcut].
Defined.

(** One entry is copied, the other has vanished since it was staged. *)
Lemma paste_handles_every_entry_witness :
  exists σ', paste "/dst" (Some KEEP_BOTH) (loaded COPY stale []) = (Ok true, σ') /\
             last (stdout σ') = Some (MsgSummary 1 1).
Proof.
  destruct (paste_handles_every_entry "/dst" KEEP_BOTH (loaded COPY stale [])
              Runs.disk_raises_exceptions_only)
    as (os & σ1 & σ' & Hos & _ & Hrun & Hsum & _); [reflexivity|].
  vm_compute in Hos. injection Hos as <- _.
  exists σ'. split; [exact Hrun | exact Hsum].
Defined.


(** Copying and moving into the read-only directory. *)
Lemma transfer_raises_file_operation_error_witness :
  (exists why,
     _copy_item (PosixPath.of_str "/src/notes") (PosixPath.of_str "/locked/notes") (fresh [])
     = (Raise (FileOperationError why), fresh [])) /\
  (exists why,
     _move_item (PosixPath.of_str "/src/notes") (PosixPath.of_str "/locked/notes") (fresh [])
     = (Raise (FileOperationError why), fresh [])).
Proof.
  destruct (transfer_raises_file_operation_error
              (PosixPath.of_str "/src/notes") (PosixPath.of_str "/locked/notes")
              (fresh []) disk PermissionError) as [Hcopy Hmove]; [reflexivity|].
  split; [apply Hcopy | apply Hmove]; reflexivity.
Defined.

Lemma transfer_failure_is_reported_as_unexpected_witness :
  last (stdout (snd (paste_entry (PosixPath.of_str "/locked") (Some REPLACE)
                       (PosixPath.of_str "/src/notes") (loaded CUT two []))))
  = Some (MsgUnexpected "notes" (FileOperationError "Permission denied")).
Proof.
  eapply (transfer_failure_is_reported_as_unexpected
            (PosixPath.of_str "/locked") (Some REPLACE) (PosixPath.of_str "/src/notes")
            (loaded CUT two [])); reflexivity.
Defined.

(** The existing [report.txt] of the read-only directory cannot be
    removed: the new one is not copied. *)
Lemma replace_stops_when_removal_fails_witness :
  paste_entry (PosixPath.of_str "/locked") (Some REPLACE)
    (PosixPath.of_str "/src/report.txt") (on_guarded COPY two [])
  = (Ok (Failed PermissionError),
     mkProcess (self (on_guarded COPY two [])) guarded []
       [MsgFailed "report.txt" PermissionError]).
Proof.
  apply (replace_stops_when_removal_fails (PosixPath.of_str "/locked")
           (PosixPath.of_str "/src/report.txt") (on_guarded COPY two [])
           guarded PermissionError); reflexivity.
Defined.

Lemma only_replace_overwrites_witness :
  exists σ1,
    resolve_conflict None (PosixPath.of_str "/src/report.txt")
      (PosixPath.of_str "/dst/report.txt") (loaded COPY two [Line "R"])
    = (Ok REPLACE, σ1).
Proof.
  edestruct (only_replace_overwrites (PosixPath.of_str "/dst") None
               (PosixPath.of_str "/src/report.txt") (loaded COPY two [Line "R"]))
    as (_ & σ1 & Hres); [vm_compute; reflexivity | reflexivity |].
  exists σ1. exact Hres.
Defined.

Lemma unique_name_keeps_parent_and_suffix_witness :
  PosixPath.parent (PosixPath.of_str "/dst/report (2).txt") = PosixPath.of_str "/dst" /\
  PosixPath.suffix (PosixPath.of_str "/dst/report (2).txt") = ".txt".
Proof.
  destruct (unique_name_keeps_parent_and_suffix (PosixPath.of_str "/dst/report.txt")
              (fresh []) (fresh []) (PosixPath.of_str "/dst/report (2).txt"))
    as (Hparent & Hsuffix); [reflexivity|].
  split; [exact Hparent|].
  destruct Hsuffix as [Hsuffix _]; [vm_compute; discriminate | exact Hsuffix].
Defined.

End MoreRuns.

(** * rhel_upgrade_automation.py: the upgrade driver

    A second program of the repository: a script that runs ten steps of
    a RHEL 8 upgrade through [ansible], stopping when a step fails.  Its
    commands go to [subprocess.run], modelled as an oracle; its parsing
    of their output is pure. *)

Declare Scope upgrade_scope.

Module Upgrade.

(** ** Strings *)

(** The double quote, as a one-character string. *)
Definition dquote : string := String (ascii_of_nat 34) EmptyString.

(** [needle in hay] *)
Fixpoint contains (needle hay : string) : bool :=
  (String.prefix needle hay
   || match hay with
      | EmptyString => false
      | String _ rest => contains needle rest
      end)%bool.

(** [s.startswith(p)] *)
Definition startswith (p s : string) : bool := String.prefix p s.

(** [c * n] for a one-character string [c] *)
Fixpoint times (c : ascii) (n : nat) : string :=
  match n with
  | 0 => EmptyString
  | S n' => String c (times c n')
  end.

Definition is_digit (c : ascii) : bool :=
  (Nat.leb 48 (nat_of_ascii c) && Nat.leb (nat_of_ascii c) 57)%bool.

(** The digits of an integer literal, where single underscores may
    separate digits: [after_digit] says that the last character read was
    a digit. *)
Fixpoint digits (s : string) (acc : Z) (after_digit : bool) : option Z :=
  match s with
  | EmptyString => if after_digit then Some acc else None
  | String c rest =>
      if is_digit c
      then digits rest (10 * acc + Z.of_nat (nat_of_ascii c - 48)) true
      else if (Ascii.eqb c "_" && after_digit)%bool
      then digits rest acc false
      else None
  end.

(** The white space [int] skips around a literal: the six characters of
    C's [isspace].  The separators 28 to 31, which [str.strip] removes, are
    not among them: [int] raises [ValueError] on them. *)
Definition is_c_space (c : ascii) : bool :=
  let n := nat_of_ascii c in
  (Nat.eqb n 32 || (Nat.leb 9 n && Nat.leb n 13))%bool.

Fixpoint skip_leading_space (s : string) : string :=
  match s with
  | EmptyString => EmptyString
  | String c s' => if is_c_space c then skip_leading_space s' else s
  end.

Fixpoint skip_trailing_space (s : string) : string :=
  match s with
  | EmptyString => EmptyString
  | String c s' =>
      match skip_trailing_space s' with
      | EmptyString => if is_c_space c then EmptyString else String c EmptyString
      | r => String c r
      end
  end.

(** [int(s)] in base 10, for an ASCII string: [None] where Python raises
    [ValueError]. *)
Definition int (s : string) : option Z :=
  match skip_trailing_space (skip_leading_space s) with
  | String "+" rest => digits rest 0 false
  | String "-" rest => Z.opp <$> digits rest 0 false
  | t => digits t 0 false
  end.

(** ** Output *)

(** The lines the script prints: one constructor per colour and prefix. *)
Inductive line : Type :=
| Info (msg : string)
| Error (msg : string)
| Warn (msg : string)
| Executing (cmd_str : string)
| IssueFound (host : string)
| Flagged (context_line : string)
| Yellow (msg : string)
| Plain (s : string).

Global Instance line_eq_dec : EqDecision line.
Proof. solve_decision. Defined.

(** ** Commands *)

(** What [subprocess.run] returns (or what [CalledProcessError] carries). *)
Record completed : Type := mkCompleted {
  returncode : Z;
  stdout : string;
  stderr : string
}.

(** The system the commands run on: a command changes its state and
    completes with a return code and its captured output.  (A command that
    cannot be started at all is outside the model.) *)
Class Shell (Sh : Type) : Type := run : Sh -> list string -> Sh * completed.

Record Run (Sh : Type) : Type := mkRun {
  shell : Sh;
  input : list input_event;
  output : list line
}.
Arguments mkRun {Sh} _ _ _.
Arguments shell {Sh} _.
Arguments input {Sh} _.
Arguments output {Sh} _.

Definition U (Sh A : Type) : Type := Run Sh -> res A * Run Sh.

Section Monad.
Context {Sh : Type}.

Definition ret {A} (a : A) : U Sh A := fun ρ => (Ok a, ρ).

Definition raise {A} (e : exn) : U Sh A := fun ρ => (Raise e, ρ).

Definition bind {A B} (m : U Sh A) (k : A -> U Sh B) : U Sh B :=
  fun ρ => match m ρ with
           | (Ok a, ρ') => k a ρ'
           | (Raise e, ρ') => (Raise e, ρ')
           end.

Definition print (l : line) : U Sh unit :=
  fun ρ => (Ok tt, mkRun (shell ρ) (input ρ) (output ρ ++ [l])).

(** [sys.exit(code)] *)
Definition sys_exit {A} (code : Z) : U Sh A := raise (SystemExit code).

(** [input(prompt)]: the next line of standard input; [EOFError] at its
    end. *)
Definition read_line : U Sh string :=
  fun ρ => match input ρ with
           | [] => (Raise OtherException, ρ)
           | Line s :: rest => (Ok s, mkRun (shell ρ) rest (output ρ))
           | Interrupted e :: rest => (Raise e, mkRun (shell ρ) rest (output ρ))
           end.

End Monad.

Notation "x <- c ;; k" := (bind c (fun x => k))
  (at level 100, c at next level, right associativity) : upgrade_scope.
Notation "c ;; k" := (bind c (fun _ => k))
  (at level 100, right associativity) : upgrade_scope.
Local Open Scope upgrade_scope.

Section Script.
Context {Sh : Type} `{Shell Sh}.

Definition print_info (msg : string) : U Sh unit := print (Info msg).
Definition print_error (msg : string) : U Sh unit := print (Error msg).
Definition print_warn (msg : string) : U Sh unit := print (Warn msg).

(** [subprocess.run(command, check=check, ...)]: with [check], a non-zero
    return code is the exception [CalledProcessError], here [inl]. *)
Definition subprocess_run (command : list string) (check : bool)
  : U Sh (completed + completed) :=
  fun ρ => let (s', result) := run (shell ρ) command in
           (Ok (if (check && negb (Z.eqb (returncode result) 0))%bool
                then inl result else inr result),
            mkRun s' (input ρ) (output ρ)).

Definition run_command (command : list string) (check capture_output : bool)
  : U Sh completed :=
  let cmd_str := String.concat " " command in
  print (Executing cmd_str) ;;
  r <- subprocess_run command check ;;
  match r with
  | inr result => ret result
  | inl e =>
      print_error ("Command failed: " ++ cmd_str) ;;
      (if (capture_output && negb (String.eqb (stderr e) ""))%bool
       then print_error (stderr e)
       else ret tt) ;;
      if check then sys_exit (returncode e) else ret e
  end.

Definition run_playbook (playbook_name : string) : U Sh unit :=
  let cmd := ["ansible-playbook"; playbook_name] in
  run_command cmd true false ;; ret tt.

(** The loop of [get_hosts_in_group] over the lines of the output. *)
Fixpoint collect_hosts (lines : list string) (hosts : list string) : list string :=
  match lines with
  | [] => hosts
  | line :: rest =>
      let line := PyStr.strip line in
      if (negb (String.eqb line "") && negb (startswith "hosts (" line))%bool
      then collect_hosts rest (hosts ++ [line])
      else collect_hosts rest hosts
  end.

Definition get_hosts_in_group (group_name : string) : U Sh (list string) :=
  let cmd := ["ansible"; group_name; "--list-hosts"] in
  result <- run_command cmd true true ;;
  let output := PyStr.strip (stdout result) in
  ret (collect_hosts (PyStr.split "010" output) []).

(** The test of [check_leapp_reports] on one line of a report. *)
Definition is_issue (line : string) : bool :=
  (contains "Risk Factor: High" line || contains "Risk Factor: Critical" line
   || contains "Severity: High" line || contains "Severity: Critical" line)%bool.

(** [for j in range(start, end): ...] around the flagged line [i]. *)
Definition print_context (lines : list string) (i : Z) : U Sh unit :=
  let start := Z.max 0 (i - 10) in
  let end_ := Z.min (Z.of_nat (List.length lines)) (i + 5) in
  fun ρ =>
    (Ok tt,
     mkRun (shell ρ) (input ρ)
       (output ρ ++
        List.map (fun j => let context_line := nth (Z.to_nat j) lines "" in
                           if Z.eqb j i then Flagged context_line else Plain context_line)
                 (seqZ start (end_ - start)))).

(** [for i, line in enumerate(lines): ...], from index [i] on. *)
Fixpoint scan_report (host : string) (lines rest : list string) (i : Z)
    (issues_found : bool) : U Sh bool :=
  match rest with
  | [] => ret issues_found
  | line :: rest' =>
      if is_issue line then
        print (IssueFound host) ;;
        print_context lines i ;;
        print (Plain (times "-" 40)) ;;
        scan_report host lines rest' (i + 1) true
      else scan_report host lines rest' (i + 1) issues_found
  end.

Fixpoint check_leapp_reports_loop (hosts : list string) (issues_found : bool) : U Sh bool :=
  match hosts with
  | [] => ret issues_found
  | host :: rest =>
      print_info ("Checking host: " ++ host) ;;
      let cmd := ["ansible"; host; "-m"; "command"; "-a";
                  "cat /var/log/leapp/leapp-report.txt"; "-b"] in
      result <- run_command cmd false true ;;
      if negb (Z.eqb (returncode result) 0) then
        print_warn ("Could not read report on " ++ host ++ ". stderr: " ++ stderr result) ;;
        check_leapp_reports_loop rest issues_found
      else
        let lines := PyStr.split "010" (stdout result) in
        found <- scan_report host lines lines 0 issues_found ;;
        check_leapp_reports_loop rest found
  end.

Definition check_leapp_reports (hosts : list string) : U Sh bool :=
  print_info "Checking leapp confirmation reports on hosts..." ;;
  check_leapp_reports_loop hosts false.

(** The regular expression of [verify_redhat_version]: [VERSION_ID=],
    an optional double quote, then [8.], anywhere in the output. *)
Definition version_is_8 (output : string) : bool :=
  (contains ("VERSION_ID=" ++ dquote ++ "8.") output || contains "VERSION_ID=8." output)%bool.

(** The two tests on the distribution: [ID=rhel], with the name in
    double quotes or bare, occurs in the output. *)
Definition id_is_rhel (output : string) : bool :=
  (contains ("ID=" ++ dquote ++ "rhel" ++ dquote) output || contains "ID=rhel" output)%bool.

Fixpoint verify_redhat_version_loop (hosts : list string) (all_ok : bool) : U Sh bool :=
  match hosts with
  | [] => ret all_ok
  | host :: rest =>
      let cmd := ["ansible"; host; "-m"; "command"; "-a"; "cat /etc/os-release"; "-b"] in
      result <- run_command cmd false true ;;
      if negb (Z.eqb (returncode result) 0) then
        print_error ("Failed to check OS on " ++ host) ;;
        verify_redhat_version_loop rest false
      else
        let output := stdout result in
        if id_is_rhel output then
          if version_is_8 output then
            print_info (host ++ ": Verified RHEL 8") ;;
            verify_redhat_version_loop rest all_ok
          else
            print_error (host ++ ": Not RHEL 8! Output:" ++ String "010" output) ;;
            verify_redhat_version_loop rest false
        else
          print_warn (host ++ ": ID is not rhel? Output:" ++ String "010" output) ;;
          verify_redhat_version_loop rest false
  end.

Definition verify_redhat_version (hosts : list string) : U Sh bool :=
  print_info "Verifying OS version is RedHat 8.*" ;;
  verify_redhat_version_loop hosts true.

Fixpoint mount_all_loop (hosts : list string) : U Sh unit :=
  match hosts with
  | [] => ret tt
  | host :: rest =>
      let cmd := ["ansible"; host; "-m"; "command"; "-a"; "mount -a"; "-b"] in
      run_command cmd true false ;;
      mount_all_loop rest
  end.

Definition mount_all (hosts : list string) : U Sh unit :=
  print_info "Running 'mount -a' on hosts..." ;;
  mount_all_loop hosts.

(** [[int(x) for x in xs]]: [ValueError] at the first item that is no
    integer. *)
Fixpoint ints (xs : list string) : U Sh (list Z) :=
  match xs with
  | [] => ret []
  | x :: rest =>
      match int x with
      | None => raise OtherException
      | Some n => ns <- ints rest ;; ret (n :: ns)
      end
  end.

(** [if k not in skip_list: step] *)
Definition unless_skipped (k : Z) (skip_list : list Z) (step : U Sh unit) : U Sh unit :=
  if bool_decide (k ∈ skip_list) then ret tt else step.

(** [main], from the value [args.skip_steps] that [argparse] delivers
    ([None] when the option is absent). *)
Definition main (skip_steps : option string) : U Sh unit :=
  skip_list <- match skip_steps with
               | None => ret []
               | Some s => if String.eqb s "" then ret []
                           else ints (PyStr.split "," s)
               end ;;
  unless_skipped 1 skip_list (run_playbook "Pre-check.yml") ;;
  unless_skipped 2 skip_list (run_playbook "pre-upgrade.yml") ;;
  unless_skipped 3 skip_list (run_playbook "setup.yml") ;;
  unless_skipped 4 skip_list (run_playbook "analyze.yml") ;;
  unless_skipped 5 skip_list (run_playbook "remediation.yml") ;;
  unless_skipped 6 skip_list
    (hosts <- get_hosts_in_group "RET" ;;
     (match hosts with
      | [] =>
          print_error "No hosts found in group [RET]. Cannot proceed with report check." ;;
          sys_exit 1
      | _ => ret tt
      end) ;;
     check_leapp_reports hosts ;;
     print (Plain (String "010" (times "=" 60))) ;;
     print (Yellow "Please review the above issues (if any).") ;;
     print (Plain "Press 'Enter' to proceed with the upgrade.") ;;
     print (Plain "Press 'Q' (or 'q') to quit.") ;;
     answer <- read_line ;;
     let user_input := PyStr.lower (PyStr.strip answer) in
     if String.eqb user_input "q" then
       print_info "Exiting as requested." ;;
       sys_exit 0
     else ret tt) ;;
  unless_skipped 7 skip_list (run_playbook "Upgrade.yml") ;;
  unless_skipped 8 skip_list (run_playbook "post-upgrade.yml") ;;
  unless_skipped 9 skip_list
    (hosts <- get_hosts_in_group "RET" ;;
     ok <- verify_redhat_version hosts ;;
     if ok then print_info "All hosts verified as RHEL 8.*. Proceeding."
     else print_error "One or more hosts failed OS verification. Exiting." ;;
          sys_exit 0) ;;
  unless_skipped 10 skip_list
    (hosts <- get_hosts_in_group "RET" ;;
     mount_all hosts) ;;
  print_info "Automation script execution completed successfully.".

End Script.

(** ** Facts about [strip] *)

Section Strip.

Lemma lstrip_head (s : string) :
  PyStr.lstrip s = EmptyString \/
  exists c t, PyStr.lstrip s = String c t /\ PyStr.is_space c = false.
Proof.
  induction s as [|c s IH]; simpl; [by left|].
  destruct (PyStr.is_space c) eqn:E; [exact IH|]. right. eauto.
Qed.

Lemma rstrip_cons (c : ascii) (s : string) :
  PyStr.is_space c = false -> PyStr.rstrip (String c s) = String c (PyStr.rstrip s).
Proof. intros Hc. simpl. rewrite Hc. by destruct (PyStr.rstrip s). Qed.

Lemma rstrip_idem (s : string) : PyStr.rstrip (PyStr.rstrip s) = PyStr.rstrip s.
Proof.
  induction s as [|c s IH]; [done|]. simpl.
  destruct (PyStr.rstrip s) as [|d r] eqn:E.
  - destruct (PyStr.is_space c) eqn:Ec; [done|]. simpl. by rewrite Ec.
  - simpl. simpl in IH. by rewrite IH.
Qed.

Lemma strip_idem (s : string) : PyStr.strip (PyStr.strip s) = PyStr.strip s.
Proof.
  unfold PyStr.strip. destruct (lstrip_head s) as [->|(c & t & -> & Hc)]; [done|].
  rewrite (rstrip_cons c t Hc). simpl PyStr.lstrip. rewrite Hc.
  rewrite (rstrip_cons c _ Hc). by rewrite rstrip_idem.
Qed.

End Strip.

(** ** The list of hosts *)

(** The command [get_hosts_in_group] runs for a group. *)
Definition list_hosts_command (group_name : string) : list string :=
  ["ansible"; group_name; "--list-hosts"].

(** A stripped line that [get_hosts_in_group] keeps. *)
Definition is_host_line (line : string) : bool :=
  (negb (String.eqb line "") && negb (startswith "hosts (" line))%bool.

Section Hosts.
Context {Sh : Type} `{Shell Sh}.

Lemma collect_hosts_filter (lines hosts : list string) :
  collect_hosts lines hosts
  = hosts ++ List.filter is_host_line (List.map PyStr.strip lines).
Proof.
  revert hosts. induction lines as [|l lines IH]; intros hosts; simpl.
  - by rewrite app_nil_r.
  - fold (is_host_line (PyStr.strip l)).
    destruct (is_host_line (PyStr.strip l)); rewrite IH; [|done].
    by rewrite <- app_assoc.
Qed.

(** X17: when the listing command returns 0 with ASCII output,
    [get_hosts_in_group] runs that one command and returns exactly the
    lines of its output that, with the white space around them removed, are
    not empty and do not start with [hosts (], in the order of the output;
    so every name is non-empty, has no white space around it, and is not
    the header. *)
Theorem hosts_are_clean_lines group_name (ρ : Run Sh) :
  returncode (snd (run (shell ρ) (list_hosts_command group_name))) = 0%Z ->
  PyStr.isascii (stdout (snd (run (shell ρ) (list_hosts_command group_name)))) = true ->
  exists hosts,
    get_hosts_in_group group_name ρ
    = (Ok hosts,
       mkRun (fst (run (shell ρ) (list_hosts_command group_name))) (input ρ)
         (output ρ ++ [Executing (String.concat " " (list_hosts_command group_name))])) /\
    hosts = List.filter is_host_line
              (List.map PyStr.strip
                 (PyStr.split "010"
                    (PyStr.strip
                       (stdout (snd (run (shell ρ) (list_hosts_command group_name))))))) /\
    Forall (fun h => h <> "" /\ PyStr.strip h = h /\ startswith "hosts (" h = false) hosts.
Proof.
  intros Hrc _. eexists. split; [|split; [reflexivity|]].
  - unfold get_hosts_in_group, bind, run_command, bind, print, subprocess_run.
    fold (list_hosts_command group_name). cbn [shell input output].
    destruct (run (shell ρ) (list_hosts_command group_name)) as [s' r].
    cbn [fst snd] in *. rewrite Hrc. cbn [Z.eqb negb andb]. unfold ret.
    by rewrite collect_hosts_filter.
  - apply Forall_forall. intros h Hh.
    apply list_elem_of_In, filter_In in Hh as [Hin Hkeep].
    apply in_map_iff in Hin as (l & <- & _).
    unfold is_host_line in Hkeep. apply andb_true_iff in Hkeep as [Hne Hhd].
    apply negb_true_iff in Hne, Hhd. apply String.eqb_neq in Hne.
    repeat split; [done | apply strip_idem | done].
Qed.

End Hosts.

(** ** The report of one host *)

Section Window.

Lemma seqZ_of_nat (a m : nat) :
  seqZ (Z.of_nat a) (Z.of_nat m) = List.map Z.of_nat (seq a m).
Proof.
  revert a. induction m as [|m IH]; intros a; [done|].
  rewrite seqZ_cons by lia. simpl. f_equal.
  replace (Z.succ (Z.of_nat a)) with (Z.of_nat (S a)) by lia.
  replace (Z.pred (Z.of_nat (S m))) with (Z.of_nat m) by lia.
  apply IH.
Qed.

Lemma map_nth_seq {A} (l : list A) (d : A) (a m : nat) :
  a + m <= List.length l ->
  List.map (fun i => nth i l d) (seq a m) = take m (drop a l).
Proof.
  revert a. induction m as [|m IH]; intros a Hlen; simpl; [by rewrite take_0|].
  destruct (lookup_lt_is_Some_2 l a) as [x Hx]; [lia|].
  rewrite (drop_S _ _ _ Hx). simpl. rewrite (nth_lookup_Some _ _ _ _ Hx).
  f_equal. apply IH. lia.
Qed.

(** The lines printed for indices [a], ..., [a + m - 1], none of which is
    the flagged index [k]. *)
Lemma context_plain (lines : list string) (k a m : nat) :
  a + m <= List.length lines -> (a + m <= k \/ k < a) ->
  List.map (fun j : Z => let context_line := nth (Z.to_nat j) lines "" in
                         if Z.eqb j (Z.of_nat k) then Flagged context_line
                         else Plain context_line)
           (List.map Z.of_nat (seq a m))
  = List.map Plain (take m (drop a lines)).
Proof.
  intros Hlen Hk. rewrite <- (map_nth_seq lines "" a m Hlen), !List.map_map.
  apply map_ext_in. intros i Hi. apply in_seq in Hi. simpl.
  rewrite Nat2Z.id. destruct (Z.eqb_spec (Z.of_nat i) (Z.of_nat k)); [lia | done].
Qed.

End Window.

Section Report.
Context {Sh : Type} `{Shell Sh}.

(** X18: around a flagged line the script prints the ten lines before
    it (fewer at the start of the report), the line itself, marked, and the
    four lines after it (fewer at the end): a window of at most fifteen
    lines of the report, in order. *)
Theorem context_is_a_window (lines : list string) (k : nat) (ρ : Run Sh) :
  k < List.length lines ->
  print_context lines (Z.of_nat k) ρ
  = (Ok tt,
     mkRun (shell ρ) (input ρ)
       (output ρ ++ List.map Plain (drop (k - 10) (take k lines))
                 ++ Flagged (nth k lines "")
                    :: List.map Plain (take 4 (drop (S k) lines)))).
Proof.
  intros Hk. unfold print_context. do 3 f_equal.
  set (n := List.length lines) in *.
  set (a := k - 10). set (b := Nat.min n (k + 5)).
  replace (Z.max 0 (Z.of_nat k - 10))%Z with (Z.of_nat a) by lia.
  replace (Z.min (Z.of_nat n) (Z.of_nat k + 5) - Z.of_nat a)%Z
    with (Z.of_nat ((k - a) + S (b - S k))) by lia.
  rewrite seqZ_of_nat, seq_app, !List.map_app.
  replace (a + (k - a)) with k by lia.
  f_equal.
  - rewrite context_plain by lia.
    rewrite take_drop_commute. by replace (a + (k - a)) with k by lia.
  - simpl seq. rewrite !List.map_cons. rewrite Z.eqb_refl, Nat2Z.id. f_equal.
    rewrite context_plain by lia. f_equal.
    destruct (decide (4 <= n - S k)).
    + by replace (b - S k) with 4 by lia.
    + rewrite !take_ge; [done | rewrite length_drop; lia | rewrite length_drop; lia].
Qed.

Definition is_issue_header (l : line) : bool :=
  match l with IssueFound _ => true | _ => false end.

Lemma print_context_run (lines : list string) (i : Z) (ρ : Run Sh) :
  exists out, print_context lines i ρ = (Ok tt, mkRun (shell ρ) (input ρ) (output ρ ++ out)) /\
              List.filter is_issue_header out = [].
Proof.
  unfold print_context. eexists. split; [reflexivity|].
  induction (seqZ _ _) as [|j js IH]; simpl; [done|].
  by destruct (Z.eqb j i).
Qed.

Lemma scan_report_run host (lines rest : list string) (i : Z) (found : bool) (ρ : Run Sh) :
  exists out,
    scan_report host lines rest i found ρ
    = (Ok (found || existsb is_issue rest)%bool,
       mkRun (shell ρ) (input ρ) (output ρ ++ out)) /\
    List.filter is_issue_header out
    = repeat (IssueFound host) (List.length (List.filter is_issue rest)).
Proof.
  revert i found ρ. induction rest as [|l rest IH]; intros i found ρ; simpl.
  - exists []. rewrite orb_false_r, app_nil_r. by destruct ρ.
  - destruct (is_issue l) eqn:El.
    + unfold bind at 1, print at 1. unfold bind at 1.
      destruct (print_context_run lines i
                  (mkRun (shell ρ) (input ρ) (output ρ ++ [IssueFound host])))
        as (ctx & -> & Hctx).
      unfold bind at 1, print at 1. cbn [shell input output].
      match goal with
      | |- context [scan_report host lines rest ?j ?f ?r] =>
          destruct (IH j f r) as (out & -> & Hout)
      end.
      exists (IssueFound host :: ctx ++ Plain (times "-" 40) :: out).
      rewrite orb_true_r. split.
      * do 2 f_equal. simpl. rewrite <- !app_assoc. reflexivity.
      * cbn [List.filter is_issue_header List.length repeat].
        rewrite List.filter_app, Hctx. cbn [List.filter is_issue_header app].
        by rewrite Hout.
    + destruct (IH (i + 1)%Z found ρ) as (out & -> & Hout). by exists out.
Qed.

(** X19: scanning a report finds an issue exactly when one of its lines
    contains one of the four markers, with their capitals; it prints one
    heading per such line and changes nothing but the output. *)
Theorem scan_finds_marked_lines host (lines : list string) (ρ : Run Sh) :
  exists found out,
    scan_report host lines lines 0 false ρ
    = (Ok found, mkRun (shell ρ) (input ρ) (output ρ ++ out)) /\
    (found = true <->
     exists l, l ∈ lines /\
       (contains "Risk Factor: High" l = true \/ contains "Risk Factor: Critical" l = true \/
        contains "Severity: High" l = true \/ contains "Severity: Critical" l = true)) /\
    List.filter is_issue_header out
    = repeat (IssueFound host) (List.length (List.filter is_issue lines)).
Proof.
  destruct (scan_report_run host lines lines 0 false ρ) as (out & Hrun & Hout).
  exists (existsb is_issue lines), out. split; [exact Hrun|]. split; [|exact Hout].
  rewrite existsb_exists. unfold is_issue. split.
  - intros (l & Hin & Hl). exists l. split; [by apply list_elem_of_In|].
    rewrite !orb_true_iff in Hl. tauto.
  - intros (l & Hin & Hl). exists l. split; [by apply list_elem_of_In|].
    rewrite !orb_true_iff. tauto.
Qed.

End Report.

(** ** Running commands *)

Section Commands.
Context {Sh : Type} `{Shell Sh}.

Lemma run_command_unchecked command capture (ρ : Run Sh) :
  run_command command false capture ρ
  = (Ok (snd (run (shell ρ) command)),
     mkRun (fst (run (shell ρ) command)) (input ρ)
       (output ρ ++ [Executing (String.concat " " command)])).
Proof.
  unfold run_command, bind, print, subprocess_run. simpl.
  by destruct (run (shell ρ) command) as [s' r].
Qed.

Lemma run_command_succeeds command capture (ρ : Run Sh) :
  returncode (snd (run (shell ρ) command)) = 0%Z ->
  run_command command true capture ρ
  = (Ok (snd (run (shell ρ) command)),
     mkRun (fst (run (shell ρ) command)) (input ρ)
       (output ρ ++ [Executing (String.concat " " command)])).
Proof.
  unfold run_command, bind, print, subprocess_run. simpl.
  destruct (run (shell ρ) command) as [s' r]. simpl. by intros ->.
Qed.

Lemma run_command_fails command (ρ : Run Sh) :
  returncode (snd (run (shell ρ) command)) <> 0%Z ->
  run_command command true false ρ
  = (Raise (SystemExit (returncode (snd (run (shell ρ) command)))),
     mkRun (fst (run (shell ρ) command)) (input ρ)
       (output ρ ++ [Executing (String.concat " " command);
                     Error ("Command failed: " ++ String.concat " " command)])).
Proof.
  unfold run_command, bind, print, subprocess_run, print_error, print, sys_exit, raise.
  simpl. destruct (run (shell ρ) command) as [s' r]. simpl. intros Hrc.
  apply Z.eqb_neq in Hrc. rewrite Hrc. simpl. by rewrite <- app_assoc.
Qed.

End Commands.

(** ** Verifying the release *)

(** The command [verify_redhat_version] runs for a host. *)
Definition os_release_command (host : string) : list string :=
  ["ansible"; host; "-m"; "command"; "-a"; "cat /etc/os-release"; "-b"].

(** What makes a host pass: the command succeeded and its output names
    RHEL and a version 8. *)
Definition host_verified (r : completed) : bool :=
  (Z.eqb (returncode r) 0 && id_is_rhel (stdout r) && version_is_8 (stdout r))%bool.

Definition is_executing (l : line) : bool :=
  match l with Executing _ => true | _ => false end.

Section Verify.
Context {Sh : Type} `{Shell Sh}.

Lemma verify_loop_run (hosts : list string) (all_ok : bool) (ρ : Run Sh) :
  (forall h, h ∈ hosts -> fst (run (shell ρ) (os_release_command h)) = shell ρ) ->
  exists out,
    verify_redhat_version_loop hosts all_ok ρ
    = (Ok (all_ok && forallb (fun h => host_verified (snd (run (shell ρ) (os_release_command h))))
                       hosts)%bool,
       mkRun (shell ρ) (input ρ) (output ρ ++ out)) /\
    List.filter is_executing out
    = List.map (fun h => Executing (String.concat " " (os_release_command h))) hosts.
Proof.
  revert all_ok ρ. induction hosts as [|h hosts IH]; intros all_ok ρ Hro.
  - exists []. simpl. rewrite andb_true_r, app_nil_r. by destruct ρ.
  - cbn [verify_redhat_version_loop]. fold (os_release_command h).
    unfold bind at 1. rewrite run_command_unchecked.
    rewrite (Hro h) by apply list_elem_of_here.
    assert (forall found msg, is_executing msg = false ->
              exists out,
                (print msg ;; verify_redhat_version_loop hosts found)
                  (mkRun (shell ρ) (input ρ)
                     (output ρ ++ [Executing (String.concat " " (os_release_command h))]))
                = (Ok (found && forallb (fun h => host_verified
                                           (snd (run (shell ρ) (os_release_command h)))) hosts)%bool,
                   mkRun (shell ρ) (input ρ) (output ρ ++ out)) /\
                List.filter is_executing out
                = Executing (String.concat " " (os_release_command h))
                  :: List.map (fun h => Executing (String.concat " " (os_release_command h)))
                       hosts) as Hnext.
    { intros found msg Hmsg. unfold bind, print. cbn [shell input output].
      destruct (IH found
                  (mkRun (shell ρ) (input ρ)
                     ((output ρ ++ [Executing (String.concat " " (os_release_command h))])
                      ++ [msg]))) as (out & -> & Hout).
      { intros h' Hh'. apply Hro. by apply list_elem_of_further. }
      exists (Executing (String.concat " " (os_release_command h)) :: msg :: out).
      cbn [shell input output]. split.
      - by rewrite <- !app_assoc.
      - cbn [List.filter is_executing]. rewrite Hmsg. by rewrite Hout. }
    cbn [forallb]. unfold host_verified at 1.
    destruct (Z.eqb (returncode (snd (run (shell ρ) (os_release_command h)))) 0); cbn [negb].
    + cbv iota. destruct (id_is_rhel _); [destruct (version_is_8 _)|].
      * destruct (Hnext all_ok (Info (h ++ ": Verified RHEL 8")) eq_refl) as (out & Hrun & Hout).
        exists out. split; [|exact Hout]. unfold print_info. rewrite Hrun.
        by rewrite andb_true_l.
      * destruct (Hnext false (Error (h ++ ": Not RHEL 8! Output:" ++ String "010"
                          (stdout (snd (run (shell ρ) (os_release_command h)))))) eq_refl)
          as (out & Hrun & Hout).
        exists out. split; [|exact Hout]. unfold print_error. rewrite Hrun.
        by rewrite andb_false_r.
      * destruct (Hnext false (Warn (h ++ ": ID is not rhel? Output:" ++ String "010"
                          (stdout (snd (run (shell ρ) (os_release_command h)))))) eq_refl)
          as (out & Hrun & Hout).
        exists out. split; [|exact Hout]. unfold print_warn. rewrite Hrun.
        by rewrite andb_false_r.
    + cbv iota.
      destruct (Hnext false (Error ("Failed to check OS on " ++ h)) eq_refl)
        as (out & Hrun & Hout).
      exists out. split; [|exact Hout]. unfold print_error. rewrite Hrun.
      by rewrite andb_false_r.
Qed.

(** X20: [verify_redhat_version] asks every host, also after one has
    failed, and returns [True] exactly when every host answered with
    return code 0 and an output that names RHEL and a version 8.  (The
    hypothesis: reading [/etc/os-release] leaves the system as it is.) *)
Theorem verify_checks_every_host (hosts : list string) (ρ : Run Sh) :
  (forall h, h ∈ hosts -> fst (run (shell ρ) (os_release_command h)) = shell ρ) ->
  exists out,
    verify_redhat_version hosts ρ
    = (Ok (forallb (fun h => host_verified (snd (run (shell ρ) (os_release_command h)))) hosts),
       mkRun (shell ρ) (input ρ) (output ρ ++ out)) /\
    List.filter is_executing out
    = List.map (fun h => Executing (String.concat " " (os_release_command h))) hosts.
Proof.
  intros Hro. unfold verify_redhat_version, bind, print_info, print.
  destruct (verify_loop_run hosts true
              (mkRun (shell ρ) (input ρ)
                 (output ρ ++ [Info "Verifying OS version is RedHat 8.*"])) Hro)
    as (out & Hrun & Hout).
  cbn [shell input output] in *. rewrite Hrun.
  exists (Info "Verifying OS version is RedHat 8.*" :: out). split.
  - by rewrite <- app_assoc.
  - exact Hout.
Qed.

End Verify.

(** ** main *)

(** The list of steps to skip that [main] computes from the option value,
    [None] when an item is no integer. *)
Definition skip_list_of (skip_steps : option string) : option (list Z) :=
  match skip_steps with
  | None => Some []
  | Some s => if String.eqb s "" then Some [] else mapM int (PyStr.split "," s)
  end.

(** The playbooks of steps 1 to 5 that a skip list leaves to run. *)
Definition first_playbooks (skip_list : list Z) : list string :=
  List.map snd
    (List.filter (fun step => negb (bool_decide (fst step ∈ skip_list)))
       [ (1, "Pre-check.yml"); (2, "pre-upgrade.yml"); (3, "setup.yml");
         (4, "analyze.yml"); (5, "remediation.yml") ]%Z).

Definition playbook_command (playbook_name : string) : list string :=
  ["ansible-playbook"; playbook_name].

Section Sequencing.
Context {Sh : Type} `{Shell Sh}.

(** The system after a sequence of commands, and whether all of them
    returned 0. *)
Fixpoint shell_after (s : Sh) (commands : list (list string)) : Sh :=
  match commands with
  | [] => s
  | c :: rest => shell_after (fst (run s c)) rest
  end.

Fixpoint all_succeed (s : Sh) (commands : list (list string)) : bool :=
  match commands with
  | [] => true
  | c :: rest => (Z.eqb (returncode (snd (run s c))) 0 && all_succeed (fst (run s c)) rest)%bool
  end.

Fixpoint run_playbooks (names : list string) : U Sh unit :=
  match names with
  | [] => ret tt
  | n :: rest => run_playbook n ;; run_playbooks rest
  end.

(** The run after the playbooks [names] have all succeeded. *)
Definition after_playbooks (names : list string) (ρ : Run Sh) : Run Sh :=
  mkRun (shell_after (shell ρ) (List.map playbook_command names)) (input ρ)
    (output ρ
     ++ List.map (fun b => Executing (String.concat " " (playbook_command b))) names).

Lemma ints_run (xs : list string) (ρ : Run Sh) :
  ints xs ρ = (match mapM int xs with Some l => Ok l | None => Raise OtherException end, ρ).
Proof.
  induction xs as [|x xs IH]; [done|]. simpl.
  destruct (int x) as [n|]; [|done]. simpl. unfold bind. rewrite IH.
  by destruct (mapM int xs).
Qed.

Lemma parse_run (skip_steps : option string) (ρ : Run Sh) :
  match skip_steps with
  | None => ret []
  | Some s => if String.eqb s "" then ret [] else ints (PyStr.split "," s)
  end ρ
  = (match skip_list_of skip_steps with Some l => Ok l | None => Raise OtherException end, ρ).
Proof.
  unfold skip_list_of. destruct skip_steps as [s|]; [|done].
  destruct (String.eqb s ""); [done|]. apply ints_run.
Qed.

(** X21: when an item of [--skip-steps] is ASCII text that is no
    integer literal, [main] ends with the [ValueError] of [int] before it
    has run any command or printed anything.  (Outside ASCII [int] accepts
    more than the model: other decimal digits, other white space.) *)
Theorem invalid_skip_list_runs_nothing (s : string) (ρ : Run Sh) :
  s <> "" ->
  (exists x, x ∈ PyStr.split "," s /\ PyStr.isascii x = true /\ int x = None) ->
  main (Some s) ρ = (Raise OtherException, ρ).
Proof.
  intros Hs (x & Hin & _ & Hx). unfold main, bind at 1.
  destruct (String.eqb_spec s "") as [|_]; [done|]. rewrite ints_run.
  destruct (mapM int (PyStr.split "," s)) as [l|] eqn:E; [|done].
  exfalso. assert (is_Some (int x)) as [z Hz]; [|congruence].
  assert (is_Some (mapM int (PyStr.split "," s))) as Hsome by eauto.
  apply mapM_is_Some in Hsome. rewrite Forall_forall in Hsome. by apply Hsome.
Qed.

Lemma first_steps (l : list Z) (K : U Sh unit) (ρ : Run Sh) :
  (unless_skipped 1 l (run_playbook "Pre-check.yml") ;;
   unless_skipped 2 l (run_playbook "pre-upgrade.yml") ;;
   unless_skipped 3 l (run_playbook "setup.yml") ;;
   unless_skipped 4 l (run_playbook "analyze.yml") ;;
   unless_skipped 5 l (run_playbook "remediation.yml") ;;
   K) ρ
  = (run_playbooks (first_playbooks l) ;; K) ρ.
Proof.
  unfold unless_skipped, first_playbooks. cbn [List.filter List.map fst snd].
  destruct (bool_decide (1%Z ∈ l)), (bool_decide (2%Z ∈ l)), (bool_decide (3%Z ∈ l)),
    (bool_decide (4%Z ∈ l)), (bool_decide (5%Z ∈ l));
    cbn [negb List.map snd run_playbooks]; unfold bind, ret;
    repeat match goal with
      | |- context [run_playbook ?n ?r] => destruct (run_playbook n r) as [[[]|?] ?]
      end; reflexivity.
Qed.

Lemma main_starts_with_playbooks (skip_steps : option string) (l : list Z) :
  skip_list_of skip_steps = Some l ->
  exists K : U Sh unit,
    forall ρ, main skip_steps ρ = (run_playbooks (first_playbooks l) ;; K) ρ.
Proof.
  intros Hl. eexists. intros ρ. unfold main, bind at 1. rewrite parse_run, Hl.
  apply first_steps.
Qed.

Lemma run_playbook_succeeds n (ρ : Run Sh) :
  returncode (snd (run (shell ρ) (playbook_command n))) = 0%Z ->
  run_playbook n ρ
  = (Ok tt, mkRun (fst (run (shell ρ) (playbook_command n))) (input ρ)
              (output ρ ++ [Executing (String.concat " " (playbook_command n))])).
Proof.
  intros Hrc. unfold run_playbook, bind. fold (playbook_command n).
  by rewrite run_command_succeeds.
Qed.

Lemma run_playbook_fails n (ρ : Run Sh) :
  returncode (snd (run (shell ρ) (playbook_command n))) <> 0%Z ->
  run_playbook n ρ
  = (Raise (SystemExit (returncode (snd (run (shell ρ) (playbook_command n))))),
     mkRun (fst (run (shell ρ) (playbook_command n))) (input ρ)
       (output ρ ++ [Executing (String.concat " " (playbook_command n));
                     Error ("Command failed: " ++ String.concat " " (playbook_command n))])).
Proof.
  intros Hrc. unfold run_playbook, bind. fold (playbook_command n).
  by rewrite run_command_fails.
Qed.

Lemma run_playbooks_succeed (names : list string) (ρ : Run Sh) :
  all_succeed (shell ρ) (List.map playbook_command names) = true ->
  run_playbooks names ρ = (Ok tt, after_playbooks names ρ).
Proof.
  revert ρ. induction names as [|n names IH]; intros ρ Hall.
  - unfold after_playbooks. cbn [run_playbooks List.map shell_after]. unfold ret.
    rewrite app_nil_r. by destruct ρ.
  - cbn [run_playbooks List.map shell_after all_succeed] in *.
    apply andb_true_iff in Hall as [Hn Hall]. apply Z.eqb_eq in Hn.
    unfold bind. rewrite (run_playbook_succeeds n ρ Hn).
    rewrite IH by exact Hall. unfold after_playbooks.
    cbn [shell input output List.map shell_after]. by rewrite <- app_assoc.
Qed.

Lemma run_playbooks_fail_fast (before : list string) n after (K : U Sh unit) (ρ : Run Sh) :
  all_succeed (shell ρ) (List.map playbook_command before) = true ->
  returncode (snd (run (shell_after (shell ρ) (List.map playbook_command before))
                     (playbook_command n))) <> 0%Z ->
  (run_playbooks (before ++ n :: after) ;; K) ρ
  = (Raise (SystemExit
              (returncode (snd (run (shell_after (shell ρ) (List.map playbook_command before))
                                  (playbook_command n))))),
     mkRun (fst (run (shell_after (shell ρ) (List.map playbook_command before))
                   (playbook_command n)))
       (input ρ)
       (output ρ
        ++ List.map (fun b => Executing (String.concat " " (playbook_command b))) before
        ++ [Executing (String.concat " " (playbook_command n));
            Error ("Command failed: " ++ String.concat " " (playbook_command n))])).
Proof.
  revert ρ. induction before as [|b before IH]; intros ρ Hall Hrc.
  - cbn [app run_playbooks List.map shell_after] in *.
    unfold bind. by rewrite run_playbook_fails.
  - cbn [app run_playbooks List.map shell_after all_succeed] in *.
    apply andb_true_iff in Hall as [Hb Hall]. apply Z.eqb_eq in Hb.
    unfold bind at 1 2. rewrite (run_playbook_succeeds b ρ Hb).
    specialize (IH (mkRun (fst (run (shell ρ) (playbook_command b))) (input ρ)
                      (output ρ ++ [Executing (String.concat " " (playbook_command b))]))
                  Hall Hrc).
    unfold bind at 1 in IH. cbn [shell input output] in IH. cbv beta iota.
    etransitivity; [exact IH|]. by rewrite <- app_assoc.
Qed.

(** X22: among the playbooks of steps 1 to 5 that are not skipped, the
    first one that returns a non-zero code ends the script: it exits with
    that code, and no later playbook or step is run. *)
Theorem first_failing_playbook_ends_the_run
    (skip_steps : option string) (l : list Z) (before : list string) n after (ρ : Run Sh) :
  skip_list_of skip_steps = Some l ->
  first_playbooks l = before ++ n :: after ->
  all_succeed (shell ρ) (List.map playbook_command before) = true ->
  returncode (snd (run (shell_after (shell ρ) (List.map playbook_command before))
                     (playbook_command n))) <> 0%Z ->
  main skip_steps ρ
  = (Raise (SystemExit
              (returncode (snd (run (shell_after (shell ρ) (List.map playbook_command before))
                                  (playbook_command n))))),
     mkRun (fst (run (shell_after (shell ρ) (List.map playbook_command before))
                   (playbook_command n)))
       (input ρ)
       (output ρ
        ++ List.map (fun b => Executing (String.concat " " (playbook_command b))) before
        ++ [Executing (String.concat " " (playbook_command n));
            Error ("Command failed: " ++ String.concat " " (playbook_command n))])).
Proof.
  intros Hl Hsplit Hall Hrc.
  destruct (main_starts_with_playbooks skip_steps l Hl) as [K ->].
  rewrite Hsplit. by apply run_playbooks_fail_fast.
Qed.

End Sequencing.

(** Steps through [if k not in skip_list: ...] when [k] is skipped, and
    into it when it is not. *)
Ltac skip_step Hin :=
  unfold bind at 1, unless_skipped at 1;
  rewrite (bool_decide_eq_true_2 _ Hin); unfold ret at 1; cbv beta iota.

Ltac take_step Hnotin :=
  unfold bind at 1, unless_skipped at 1;
  rewrite (bool_decide_eq_false_2 _ Hnotin).

Section Review.
Context {Sh : Type} `{Shell Sh}.

(** X23: when the report review (step 6) is the first step not skipped
    and the group [RET] has no host, the script prints an error and exits
    with status 1 without looking at any report. *)
Theorem no_hosts_exits_with_1
    (skip_steps : option string) (l : list Z) (ρ ρ1 : Run Sh) :
  skip_list_of skip_steps = Some l ->
  (forall k, (1 <= k <= 5)%Z -> k ∈ l) -> 6%Z ∉ l ->
  get_hosts_in_group "RET" ρ = (Ok [], ρ1) ->
  main skip_steps ρ
  = (Raise (SystemExit 1),
     mkRun (shell ρ1) (input ρ1)
       (output ρ1
        ++ [Error "No hosts found in group [RET]. Cannot proceed with report check."])).
Proof.
  intros Hl Hskip H6 Hhosts. unfold main, bind at 1. rewrite parse_run, Hl.
  skip_step (Hskip 1%Z ltac:(lia)). skip_step (Hskip 2%Z ltac:(lia)).
  skip_step (Hskip 3%Z ltac:(lia)). skip_step (Hskip 4%Z ltac:(lia)).
  skip_step (Hskip 5%Z ltac:(lia)). take_step H6.
  unfold bind at 1. rewrite Hhosts. reflexivity.
Qed.

(** X24: at the review prompt of step 6 the answer [q], in either
    case and with ASCII white space around it, ends the script with status
    0, whichever other steps are skipped and whatever the reports showed:
    the playbooks of steps 1 to 5 that were due have run, the last command
    is the reading of the reports, and the upgrade playbook is not run. *)
Theorem quitting_at_the_review_exits_with_0
    (skip_steps : option string) (l : list Z) (ρ ρ1 ρ2 : Run Sh)
    h hosts found answer rest :
  skip_list_of skip_steps = Some l ->
  6%Z ∉ l ->
  all_succeed (shell ρ) (List.map playbook_command (first_playbooks l)) = true ->
  get_hosts_in_group "RET" (after_playbooks (first_playbooks l) ρ) = (Ok (h :: hosts), ρ1) ->
  check_leapp_reports (h :: hosts) ρ1 = (Ok found, ρ2) ->
  input ρ2 = Line answer :: rest ->
  PyStr.lower (PyStr.strip answer) = "q" ->
  main skip_steps ρ
  = (Raise (SystemExit 0),
     mkRun (shell ρ2) rest
       (output ρ2
        ++ [ Plain (String "010" (times "=" 60));
             Yellow "Please review the above issues (if any).";
             Plain "Press 'Enter' to proceed with the upgrade.";
             Plain "Press 'Q' (or 'q') to quit.";
             Info "Exiting as requested." ])).
Proof.
  intros Hl H6 Hall Hhosts Hcheck Hin Hq. unfold main, bind at 1. rewrite parse_run, Hl.
  cbv beta iota. rewrite first_steps. unfold bind at 1.
  rewrite (run_playbooks_succeed _ _ Hall). take_step H6.
  unfold bind at 1. rewrite Hhosts. cbv beta iota.
  unfold bind at 1, ret at 1. cbv beta iota.
  unfold bind at 1. rewrite Hcheck. cbv beta iota.
  unfold bind, print, read_line. cbn [shell input output]. rewrite Hin.
  cbn [shell input output]. rewrite Hq.
  unfold print_info, print, sys_exit, raise. cbn [shell input output String.eqb].
  rewrite Ascii.eqb_refl. cbn [shell input output]. by rewrite <- !app_assoc.
Qed.

(** Steps 1 to 8 of [main], as they stand in it. *)
Definition steps_1_to_8 (skip_list : list Z) : U Sh unit :=
  unless_skipped 1 skip_list (run_playbook "Pre-check.yml") ;;
  unless_skipped 2 skip_list (run_playbook "pre-upgrade.yml") ;;
  unless_skipped 3 skip_list (run_playbook "setup.yml") ;;
  unless_skipped 4 skip_list (run_playbook "analyze.yml") ;;
  unless_skipped 5 skip_list (run_playbook "remediation.yml") ;;
  unless_skipped 6 skip_list
    (hosts <- get_hosts_in_group "RET" ;;
     (match hosts with
      | [] =>
          print_error "No hosts found in group [RET]. Cannot proceed with report check." ;;
          sys_exit 1
      | _ => ret tt
      end) ;;
     check_leapp_reports hosts ;;
     print (Plain (String "010" (times "=" 60))) ;;
     print (Yellow "Please review the above issues (if any).") ;;
     print (Plain "Press 'Enter' to proceed with the upgrade.") ;;
     print (Plain "Press 'Q' (or 'q') to quit.") ;;
     answer <- read_line ;;
     let user_input := PyStr.lower (PyStr.strip answer) in
     if String.eqb user_input "q" then
       print_info "Exiting as requested." ;;
       sys_exit 0
     else ret tt) ;;
  unless_skipped 7 skip_list (run_playbook "Upgrade.yml") ;;
  unless_skipped 8 skip_list (run_playbook "post-upgrade.yml").

Lemma bind_assoc {A B C} (m : U Sh A) (f : A -> U Sh B) (g : B -> U Sh C) (ρ : Run Sh) :
  bind (bind m f) g ρ = bind m (fun x => bind (f x) g) ρ.
Proof. unfold bind. by destruct (m ρ) as [[a|e] ρ']. Qed.

Lemma bind_ext {A B} (m : U Sh A) (f g : A -> U Sh B) (ρ : Run Sh) :
  (forall x ρ', f x ρ' = g x ρ') -> bind m f ρ = bind m g ρ.
Proof. intros Hfg. unfold bind. destruct (m ρ) as [[a|e] ρ']; [apply Hfg | done]. Qed.

(** [main] is its first eight steps followed by the rest: when they
    complete, the run goes on from step 9 in the state they left. *)
Lemma main_from_step_9 (skip_steps : option string) (l : list Z) (ρ ρ0 : Run Sh) :
  skip_list_of skip_steps = Some l ->
  steps_1_to_8 l ρ = (Ok tt, ρ0) ->
  main skip_steps ρ
  = (unless_skipped 9 l
       (hosts <- get_hosts_in_group "RET" ;;
        ok <- verify_redhat_version hosts ;;
        if ok then print_info "All hosts verified as RHEL 8.*. Proceeding."
        else print_error "One or more hosts failed OS verification. Exiting." ;;
             sys_exit 0) ;;
     unless_skipped 10 l
       (hosts <- get_hosts_in_group "RET" ;;
        mount_all hosts) ;;
     print_info "Automation script execution completed successfully.") ρ0.
Proof.
  intros Hl Hsteps. unfold main, bind at 1. rewrite parse_run, Hl. cbv beta iota.
  match goal with
  | |- _ = ?K ρ0 => transitivity (bind (steps_1_to_8 l) (fun _ => K) ρ)
  end.
  - symmetry. unfold steps_1_to_8.
    do 7 (rewrite bind_assoc; apply bind_ext; intros [] ?).
    reflexivity.
  - unfold bind at 1. by rewrite Hsteps.
Qed.

(** X25: whenever the run reaches step 9 and the verification of the
    release fails, the script prints an error and exits with status 0, the
    status of a complete run, and the mounting of step 10 does not run;
    this on an ordinary run as with steps skipped. *)
Theorem failed_verification_exits_with_0
    (skip_steps : option string) (l : list Z) (ρ ρ0 ρ1 ρ2 : Run Sh) hosts :
  skip_list_of skip_steps = Some l ->
  9%Z ∉ l ->
  steps_1_to_8 l ρ = (Ok tt, ρ0) ->
  get_hosts_in_group "RET" ρ0 = (Ok hosts, ρ1) ->
  verify_redhat_version hosts ρ1 = (Ok false, ρ2) ->
  main skip_steps ρ
  = (Raise (SystemExit 0),
     mkRun (shell ρ2) (input ρ2)
       (output ρ2 ++ [Error "One or more hosts failed OS verification. Exiting."])).
Proof.
  intros Hl H9 Hsteps Hhosts Hverify.
  rewrite (main_from_step_9 skip_steps l ρ ρ0 Hl Hsteps).
  take_step H9.
  unfold bind at 1. rewrite Hhosts. cbv beta iota.
  unfold bind at 1. rewrite Hverify. reflexivity.
Qed.

End Review.

(** ** Reading the reports and mounting, host by host *)


Definition mount_command (host : string) : list string :=
  ["ansible"; host; "-m"; "command"; "-a"; "mount -a"; "-b"].

Section HostLoops.
Context {Sh : Type} `{Shell Sh}.





Lemma mount_loop_fail_fast (before : list string) h after (ρ : Run Sh) :
  all_succeed (shell ρ) (List.map mount_command before) = true ->
  returncode (snd (run (shell_after (shell ρ) (List.map mount_command before))
                     (mount_command h))) <> 0%Z ->
  mount_all_loop (before ++ h :: after) ρ
  = (Raise (SystemExit
              (returncode (snd (run (shell_after (shell ρ) (List.map mount_command before))
                                  (mount_command h))))),
     mkRun (fst (run (shell_after (shell ρ) (List.map mount_command before))
                   (mount_command h)))
       (input ρ)
       (output ρ
        ++ List.map (fun b => Executing (String.concat " " (mount_command b))) before
        ++ [Executing (String.concat " " (mount_command h));
            Error ("Command failed: " ++ String.concat " " (mount_command h))])).
Proof.
  revert ρ. induction before as [|b before IH]; intros ρ Hall Hrc.
  - cbn [app mount_all_loop List.map shell_after] in *. fold (mount_command h).
    unfold bind. by rewrite run_command_fails.
  - cbn [app mount_all_loop List.map shell_after all_succeed] in *. fold (mount_command b).
    apply andb_true_iff in Hall as [Hb Hall]. apply Z.eqb_eq in Hb.
    unfold bind at 1. rewrite (run_command_succeeds _ false ρ Hb).
    rewrite IH; [|exact Hall|exact Hrc]. cbn [shell input output].
    by rewrite <- app_assoc.
Qed.

(** X27: [mount_all] stops at the first host on which [mount -a]
    returns a non-zero code: the script exits with that code and the hosts
    after it are not mounted. *)
Theorem mount_stops_at_first_failure (before : list string) h after (ρ : Run Sh) :
  all_succeed (shell ρ) (List.map mount_command before) = true ->
  returncode (snd (run (shell_after (shell ρ) (List.map mount_command before))
                     (mount_command h))) <> 0%Z ->
  mount_all (before ++ h :: after) ρ
  = (Raise (SystemExit
              (returncode (snd (run (shell_after (shell ρ) (List.map mount_command before))
                                  (mount_command h))))),
     mkRun (fst (run (shell_after (shell ρ) (List.map mount_command before))
                   (mount_command h)))
       (input ρ)
       (output ρ
        ++ Info "Running 'mount -a' on hosts..."
           :: List.map (fun b => Executing (String.concat " " (mount_command b))) before
        ++ [Executing (String.concat " " (mount_command h));
            Error ("Command failed: " ++ String.concat " " (mount_command h))])).
Proof.
  intros Hall Hrc. unfold mount_all, bind, print_info, print.
  rewrite mount_loop_fail_fast; [|exact Hall|exact Hrc]. cbn [shell input output].
  by rewrite <- app_assoc.
Qed.

End HostLoops.

(** ** A scripted system

    A system that answers each command from a table and never changes: a
    command that is not in the table succeeds with no output. *)

Module Scripted.

Definition table : Type := list (list string * completed).

Fixpoint answer (t : table) (command : list string) : completed :=
  match t with
  | [] => mkCompleted 0 "" ""
  | (c, r) :: rest => if decide (c = command) then r else answer rest command
  end.

Global Instance shell_of_table : Shell table := fun t command => (t, answer t command).

Definition nl : string := String "010" "".

(** Two hosts in the group; [host1] runs RHEL 8.10 and has a report with
    one marked line, [host2] cannot be reached for its release; the
    playbook [setup.yml] fails with code 4. *)
Definition site : table :=
  [ (["ansible"; "RET"; "--list-hosts"],
     mkCompleted 0 ("  hosts (2):" ++ nl ++ "    host1" ++ nl ++ nl ++ "    host2 " ++ nl) "");
    (os_release_command "host1",
     mkCompleted 0 ("ID=" ++ dquote ++ "rhel" ++ dquote ++ nl
                    ++ "VERSION_ID=" ++ dquote ++ "8.10" ++ dquote) "");
    (os_release_command "host2", mkCompleted 2 "" "unreachable");
    (["ansible"; "host1"; "-m"; "command"; "-a"; "cat /var/log/leapp/leapp-report.txt"; "-b"],
     mkCompleted 0 ("a" ++ nl ++ "Risk Factor: High" ++ nl ++ "b") "");
    (playbook_command "setup.yml", mkCompleted 4 "" "boom") ].

(** The same group on a system where no host is listed. *)
Definition empty_site : table :=
  [ (["ansible"; "RET"; "--list-hosts"], mkCompleted 0 ("  hosts (0):" ++ nl) "") ].

Definition start (t : table) (input : list input_event) : Run table := mkRun t input [].

Lemma hosts_are_clean_lines_witness :
  exists hosts,
    get_hosts_in_group "RET" (start site [])
    = (Ok hosts, mkRun site [] [Executing "ansible RET --list-hosts"]) /\
    hosts = ["host1"; "host2"].
Proof.
  destruct (hosts_are_clean_lines "RET" (start site [])) as (hosts & Hrun & Hhosts & _);
    [reflexivity | reflexivity |].
  exists hosts. split; [exact Hrun | exact Hhosts].
Defined.

(** A flagged line with one line before it and one after. *)
Lemma context_is_a_window_witness :
  print_context ["a"; "Risk Factor: High"; "b"] (Z.of_nat 1) (start site [])
  = (Ok tt, mkRun site [] [Plain "a"; Flagged "Risk Factor: High"; Plain "b"]).
Proof.
  rewrite (context_is_a_window ["a"; "Risk Factor: High"; "b"] 1 (start site []));
    [reflexivity | simpl; lia].
Defined.

Lemma verify_checks_every_host_witness :
  exists out,
    verify_redhat_version ["host2"; "host1"] (start site [])
    = (Ok false, mkRun site [] out) /\
    List.filter is_executing out
    = [ Executing "ansible host2 -m command -a cat /etc/os-release -b";
        Executing "ansible host1 -m command -a cat /etc/os-release -b" ].
Proof.
  destruct (verify_checks_every_host ["host2"; "host1"] (start site []))
    as (out & Hrun & Hout); [reflexivity|].
  exists out. split; [exact Hrun | exact Hout].
Defined.

Lemma invalid_skip_list_runs_nothing_witness :
  main (Some "1,2,x") (start site []) = (Raise OtherException, start site []).
Proof.
  apply (invalid_skip_list_runs_nothing "1,2,x" (start site [])); [discriminate|].
  exists "x". split; [|split; reflexivity].
  apply list_elem_of_further, list_elem_of_further, list_elem_of_here.
Defined.

(** Steps 1 and 4 are skipped; [pre-upgrade.yml] succeeds and [setup.yml]
    fails with code 4. *)
Lemma first_failing_playbook_ends_the_run_witness :
  main (Some "1, 4") (start site [])
  = (Raise (SystemExit 4),
     mkRun site []
       [ Executing "ansible-playbook pre-upgrade.yml";
         Executing "ansible-playbook setup.yml";
         Error "Command failed: ansible-playbook setup.yml" ]).
Proof.
  rewrite (first_failing_playbook_ends_the_run (Some "1, 4") [1; 4]%Z
             ["pre-upgrade.yml"] "setup.yml" ["remediation.yml"] (start site []));
    [reflexivity | reflexivity | reflexivity | reflexivity | vm_compute; discriminate].
Defined.

Lemma skipped_1_to_5 (k : Z) : (1 <= k <= 5)%Z -> k ∈ [1; 2; 3; 4; 5]%Z.
Proof.
  intros Hk. assert (k = 1 \/ k = 2 \/ k = 3 \/ k = 4 \/ k = 5)%Z as Hcases by lia.
  repeat (destruct Hcases as [->|Hcases]; [by apply (bool_decide_unpack _)|]).
  subst. by apply (bool_decide_unpack _).
Qed.

Lemma no_hosts_exits_with_1_witness :
  main (Some "1,2,3,4,5") (start empty_site [])
  = (Raise (SystemExit 1),
     mkRun empty_site []
       [ Executing "ansible RET --list-hosts";
         Error "No hosts found in group [RET]. Cannot proceed with report check." ]).
Proof.
  rewrite (no_hosts_exits_with_1 (Some "1,2,3,4,5") [1; 2; 3; 4; 5]%Z
             (start empty_site [])
             (mkRun empty_site [] [Executing "ansible RET --list-hosts"]));
    [reflexivity | reflexivity | exact skipped_1_to_5 | by apply (bool_decide_eq_false_1 _) | reflexivity].
Defined.

(** The site once [setup.yml] has been repaired: every playbook
    succeeds. *)
Definition repaired_site : table :=
  (playbook_command "setup.yml", mkCompleted 0 "" "") :: site.

(** An ordinary run, no step skipped: the five playbooks, the list of
    hosts and the two reports, then [Q] at the prompt. *)
Lemma quitting_at_the_review_exits_with_0_witness :
  fst (main None (start repaired_site [Line " Q "; Line "later"]))
  = Raise (SystemExit 0) /\
  input (snd (main None (start repaired_site [Line " Q "; Line "later"])))
  = [Line "later"] /\
  List.length
    (List.filter is_executing
       (output (snd (main None (start repaired_site [Line " Q "; Line "later"])))))
  = 8.
Proof.
  rewrite (quitting_at_the_review_exits_with_0 None []
             (start repaired_site [Line " Q "; Line "later"])
             (snd (get_hosts_in_group "RET"
                     (after_playbooks (first_playbooks [])
                        (start repaired_site [Line " Q "; Line "later"]))))
             (snd (check_leapp_reports ["host1"; "host2"]
                     (snd (get_hosts_in_group "RET"
                             (after_playbooks (first_playbooks [])
                                (start repaired_site [Line " Q "; Line "later"]))))))
             "host1" ["host2"] true " Q " [Line "later"]);
    [repeat split; reflexivity | reflexivity | apply not_elem_of_nil
    | reflexivity | reflexivity | reflexivity | reflexivity | reflexivity].
Defined.

(** An ordinary run that goes on at the review: the upgrade and the
    post-upgrade playbooks run, then [host2] fails the verification. *)
Lemma failed_verification_exits_with_0_witness :
  fst (main None (start repaired_site [Line ""])) = Raise (SystemExit 0) /\
  last (output (snd (main None (start repaired_site [Line ""]))))
  = Some (Error "One or more hosts failed OS verification. Exiting.").
Proof.
  rewrite (failed_verification_exits_with_0 None [] (start repaired_site [Line ""])
             (snd (steps_1_to_8 [] (start repaired_site [Line ""])))
             (snd (get_hosts_in_group "RET"
                     (snd (steps_1_to_8 [] (start repaired_site [Line ""])))))
             (snd (verify_redhat_version ["host1"; "host2"]
                     (snd (get_hosts_in_group "RET"
                             (snd (steps_1_to_8 [] (start repaired_site [Line ""])))))))
             ["host1"; "host2"]);
    [split; reflexivity | reflexivity | apply not_elem_of_nil
    | reflexivity | reflexivity | reflexivity].
Defined.

(** On [host2] the mount fails with code 32; [host3] is never reached. *)
Definition mount_site : table := (mount_command "host2", mkCompleted 32 "" "") :: site.

Lemma mount_stops_at_first_failure_witness :
  mount_all ["host1"; "host2"; "host3"] (start mount_site [])
  = (Raise (SystemExit 32),
     mkRun mount_site []
       [ Info "Running 'mount -a' on hosts...";
         Executing "ansible host1 -m command -a mount -a -b";
         Executing "ansible host2 -m command -a mount -a -b";
         Error "Command failed: ansible host2 -m command -a mount -a -b" ]).
Proof.
  rewrite (mount_stops_at_first_failure ["host1"] "host2" ["host3"] (start mount_site []));
    [reflexivity | reflexivity | vm_compute; discriminate].
Defined.

End Scripted.

End Upgrade.
